(** * PiczakCNN: the graph that [Piczak.build_predict_op] constructs,
      the loss op, and checkpoint save / restore.

    Source: [EndToEndClassification/EnvClassification/Models/PiczakCNN.py].

    The Python class builds a TensorFlow-1 graph.  Calling a layer function
    does two things at graph-construction time: it registers the layer's
    variables in the graph's [GLOBAL_VARIABLES] collection under the current
    variable scope, and it infers the static shape of its output (raising
    [ValueError] when the shape inference fails).  Values only exist later,
    when a session runs a node of the graph.  The development follows that
    split: a state-and-exception monad over the graph for construction, and
    an evaluator [run] over sessions for execution. *)

From Stdlib Require Import ZArith QArith Reals Lra.
From stdpp Require Import base strings list gmap.

Local Open Scope Z_scope.

(** ** Exceptions *)

(** What a [tf.errors.InvalidArgumentError] of a session run complains
    about: a placeholder that was not fed; logits and labels that "must have
    the same first dimension"; "a label value ... outside the valid range";
    a kernel applied to a value of a kind it does not take. *)
Inductive InvalidArgument : Set :=
| PlaceholderNotFed
| FirstDimensionMismatch
| LabelOutOfRange
| UnsupportedOperand.

(** The Python exceptions the modelled calls can raise.  [ShapeMismatch] is
    the [ValueError] that TensorFlow's static shape inference raises
    ("Negative dimension size ...", "Dimensions must be equal ...",
    "Shape mismatch ...", "Cannot reshape ..."); [ValueError] stands for the
    remaining uses of that exception class.  [InvalidArgumentError] is
    raised by a kernel while a session runs, with what it complains about. *)
Inductive Exn : Set :=
| ShapeMismatch
| ValueError
| TypeError
| IndexError
| NotFoundError
| FailedPreconditionError
| InvalidArgumentError (what : InvalidArgument).

(** ** Static shapes *)

(** [tf.Dimension]: a known size or [None]. *)
Definition Dim : Set := option Z.

(** [tf.TensorShape] of known rank. *)
Definition Shape : Set := list Dim.

(** ** Initializers and regularizers

    The constructor receives them as opaque functions and hands them to every
    layer; the graph only records which one a variable was created with. *)
Inductive Initializer : Set :=
| xavier_initializer
| zeros_initializer
| custom_initializer (name : string).

Inductive Regularizer : Set :=
| custom_regularizer (name : string).

(** ** The graph under construction *)

Record VarSpec : Set := {
  var_name : string;          (* full name, e.g. piczak/cnn_1/weights *)
  var_shape : list Z;
  var_init : Initializer;
  var_reg : option Regularizer
}.

Record Graph : Set := {
  scope : string;                       (* current variable scope: empty, or ends in "/" *)
  global_variables : list VarSpec       (* tf.GraphKeys.GLOBAL_VARIABLES, in creation order *)
}.

Definition var_names (g : Graph) : list string := var_name <$> global_variables g.

Definition set_scope (s : string) (g : Graph) : Graph :=
  {| scope := s; global_variables := global_variables g |}.

Definition add_variable (v : VarSpec) (g : Graph) : Graph :=
  {| scope := scope g; global_variables := global_variables g ++ [v] |}.

Definition empty_graph : Graph := {| scope := ""; global_variables := [] |}.

(** ** Nodes of the data-flow graph *)

Inductive Node : Set :=
| Placeholder (name : string)
| Conv2D (x : Node) (weights biases : string) (stride : Z * Z)
| Relu (x : Node)
| Dropout (x : Node) (keep_prob : Q) (is_training : bool)
| MaxPool (x : Node) (ksize stride : Z * Z)
| Transpose (x : Node) (perm : list nat)
| Reshape (x : Node) (target : list Z)
| FullyConnected (x : Node) (weights biases : string)
| SparseSoftmaxCrossEntropyWithLogits (labels logits : Node)
| ReduceMean (x : Node).

(** A symbolic tensor: the node that computes it and its static shape. *)
Record Tensor : Set := {
  op : Node;
  get_shape : Shape
}.

(** ** The construction monad: graph state that survives an exception *)

Definition M (A : Type) : Type := Graph → (Exn + A) * Graph.

Definition ret {A} (a : A) : M A := λ g, (inr a, g).

Definition throw {A} (e : Exn) : M A := λ g, (inl e, g).

Definition bind {A B} (m : M A) (k : A → M B) : M B :=
  λ g, match m g with
       | (inl e, g') => (inl e, g')
       | (inr a, g') => k a g'
       end.

Definition lift {A} (r : Exn + A) : M A := λ g, (r, g).

Notation "x <- m ;; k" := (bind m (λ x, k))
  (at level 100, m at next level, right associativity,
   format "'[v' x  <-  m  ;;  '/' k ']'").

(** [with tf.variable_scope(name):] extends the scope for the body and
    restores it on exit, also when the body raises. *)
Definition variable_scope {A} (name : string) (body : M A) : M A :=
  λ g, let outer := scope g in
       let r := body (set_scope (outer +:+ name +:+ "/") g) in
       (r.1, set_scope outer r.2).

(** [tf.get_variable]: the name is prefixed with the current scope; a second
    creation under the same name is refused, and so is a negative dimension.
    Two things of the library are left out.  Variable reuse: the class
    requests none, and the scopes here are those with reuse off, the
    default; under a caller's scope with reuse on, a second creation shares
    the variable instead.  The limit on the size: the library refuses a
    variable of more than 2^63 - 1 entries; the statements about builds that
    succeed ask for shapes [within_limit]. *)
Definition get_variable (name : string) (shape : list Z)
    (initializer : Initializer) (regularizer : option Regularizer) : M string :=
  λ g, let full := scope g +:+ name in
       if bool_decide (full ∈ var_names g) then (inl ValueError, g)
       else if forallb (Z.leb 0) shape then
         (inr full,
          add_variable {| var_name := full; var_shape := shape;
                          var_init := initializer; var_reg := regularizer |} g)
       else (inl ValueError, g).

(** ** Shape inference of the TensorFlow primitives *)

(** Output size of a VALID window along one axis: an error when the window
    does not fit, otherwise (n - window + stride) / stride. *)
Definition windowed_output_size (input : Dim) (window stride : Z) : Exn + Dim :=
  match input with
  | None => inr None
  | Some n =>
      if n <? window then inl ShapeMismatch
      else inr (Some ((n - window + stride) / stride))
  end.

(** [slim.convolution(inputs, num_outputs, kernel_size, stride=..,
    padding='VALID', activation_fn=None, ..., scope=..)] on NHWC input. *)
Definition slim_convolution (inputs : Tensor) (num_outputs : Z)
    (kernel_size stride : Z * Z)
    (weights_initializer biases_initializer : Initializer)
    (weights_regularizer biases_regularizer : option Regularizer)
    (scope_name : string) : M Tensor :=
  variable_scope scope_name
    match get_shape inputs with
    | [n; h; w; Some c] =>
        weights <- get_variable "weights"
                     [kernel_size.1; kernel_size.2; c; num_outputs]
                     weights_initializer weights_regularizer ;;
        biases <- get_variable "biases" [num_outputs]
                    biases_initializer biases_regularizer ;;
        h' <- lift (windowed_output_size h kernel_size.1 stride.1) ;;
        w' <- lift (windowed_output_size w kernel_size.2 stride.2) ;;
        ret {| op := Conv2D (op inputs) weights biases stride;
               get_shape := [n; h'; w'; Some num_outputs] |}
    | _ => throw ValueError
    end.

(** [tf.nn.relu]. *)
Definition tf_nn_relu (features : Tensor) : M Tensor :=
  ret {| op := Relu (op features); get_shape := get_shape features |}.

(** [slim.dropout(inputs, keep_prob=.., is_training=.., scope=..)]: opens
    the scope, creates no variable, keeps the shape. *)
Definition slim_dropout (inputs : Tensor) (keep_prob : Q) (is_training : bool)
    (scope_name : string) : M Tensor :=
  variable_scope scope_name
    (ret {| op := Dropout (op inputs) keep_prob is_training;
            get_shape := get_shape inputs |}).

(** [slim.pool(inputs, kernel_size, 'MAX', padding='VALID', stride=..)]. *)
Definition slim_pool (inputs : Tensor) (kernel_size stride : Z * Z) : M Tensor :=
  match get_shape inputs with
  | [n; h; w; c] =>
      h' <- lift (windowed_output_size h kernel_size.1 stride.1) ;;
      w' <- lift (windowed_output_size w kernel_size.2 stride.2) ;;
      ret {| op := MaxPool (op inputs) kernel_size stride;
             get_shape := [n; h'; w'; c] |}
  | _ => throw ValueError
  end.

(** [tf.transpose(a, perm)]. *)
Definition tf_transpose (a : Tensor) (perm : list nat) : M Tensor :=
  if bool_decide (length (get_shape a) = length perm) then
    match mapM (λ i, get_shape a !! i) perm with
    | Some s => ret {| op := Transpose (op a) perm; get_shape := s |}
    | None => throw ShapeMismatch
    end
  else throw ShapeMismatch.

(** Product of the known dimensions, and the number of unknown ones. *)
Definition known_elems (s : Shape) : Z :=
  foldr (λ d acc, match d with Some v => v * acc | None => acc end) 1 s.

Definition unknown_dims (s : Shape) : nat :=
  foldr (λ d acc, match d with Some _ => acc | None => S acc end) 0%nat s.

(** [tf.reshape(tensor, shape)], where the entry -1 of [shape] is the one
    dimension to infer.  With the input fully known and a positive product of
    the requested sizes, the missing size is the quotient, which must be
    exact; with an unknown input size it stays unknown. *)
Definition tf_reshape (tensor : Tensor) (shape : list Z) : M Tensor :=
  let out : Shape := (λ d, if d =? -1 then None else Some d) <$> shape in
  let node := Reshape (op tensor) shape in
  if existsb (λ d, d <? -1) shape then throw ValueError
  else
    let n_in := known_elems (get_shape tensor) in
    let n_out := known_elems out in
    match unknown_dims (get_shape tensor), unknown_dims out with
    | O, O =>
        if n_in =? n_out then ret {| op := node; get_shape := out |}
        else throw ShapeMismatch
    | O, S O =>
        if 0 <? n_out then
          if n_in mod n_out =? 0 then
            ret {| op := node;
                   get_shape := (λ d : Dim, match d with
                                            | None => Some (n_in / n_out)
                                            | Some v => Some v
                                            end) <$> out |}
          else throw ShapeMismatch
        else ret {| op := node; get_shape := out |}
    | _, _ => ret {| op := node; get_shape := out |}
    end.

(** [int(d)] on a [Dimension]: a [TypeError] when the size is unknown. *)
Definition int_ (d : Dim) : M Z :=
  match d with
  | Some v => ret v
  | None => throw TypeError
  end.

(** [d1 * d2] on [Dimension]s. *)
Definition dim_mul (d1 d2 : Dim) : Dim :=
  match d1, d2 with
  | Some x, Some y => Some (x * y)
  | _, _ => None
  end.

(** [shx[i]]. *)
Definition shape_index (shx : Shape) (i : nat) : M Dim :=
  match shx !! i with
  | Some d => ret d
  | None => throw IndexError
  end.

(** [slim.fully_connected(inputs, num_outputs, activation_fn=None, ...,
    scope=..)]: rank at least 2 and a known last dimension. *)
Definition slim_fully_connected (inputs : Tensor) (num_outputs : Z)
    (weights_initializer biases_initializer : Initializer)
    (weights_regularizer biases_regularizer : option Regularizer)
    (scope_name : string) : M Tensor :=
  variable_scope scope_name
    (if bool_decide (length (get_shape inputs) < 2)%nat then throw ValueError
     else
       match last (get_shape inputs) with
       | Some (Some d) =>
           weights <- get_variable "weights" [d; num_outputs]
                        weights_initializer weights_regularizer ;;
           biases <- get_variable "biases" [num_outputs]
                       biases_initializer biases_regularizer ;;
           ret {| op := FullyConnected (op inputs) weights biases;
                  get_shape := removelast (get_shape inputs) ++ [Some num_outputs] |}
       | _ => throw ValueError
       end).

(** [tf.nn.sparse_softmax_cross_entropy_with_logits(labels=.., logits=..)]:
    the static checks made when the op is added to the graph.  Label values
    are not known at that time and are not inspected. *)
Definition fully_defined (s : Shape) : bool := forallb (λ d : Dim, bool_decide (d ≠ None)) s.

Definition merge_dim (d1 d2 : Dim) : Exn + Dim :=
  match d1, d2 with
  | Some x, Some y => if x =? y then inr (Some x) else inl ShapeMismatch
  | Some x, None => inr (Some x)
  | None, d => inr d
  end.

Definition tf_nn_sparse_softmax_cross_entropy_with_logits
    (labels logits : Tensor) : M Tensor :=
  let labels_static_shape := get_shape labels in
  let logits_shape := get_shape logits in
  let node := SparseSoftmaxCrossEntropyWithLogits (op labels) (op logits) in
  if bool_decide (length logits_shape = 0%nat) then throw ValueError
  else if bool_decide (length labels_static_shape ≠ (length logits_shape - 1)%nat)
  then throw ShapeMismatch
  else if fully_defined labels_static_shape
          && fully_defined (removelast logits_shape)
          && bool_decide (labels_static_shape ≠ removelast logits_shape)
  then throw ShapeMismatch
  else
    match logits_shape, labels_static_shape with
    | [n; _], [m] =>
        d <- lift (merge_dim n m) ;;
        ret {| op := node; get_shape := [d] |}
    | _, _ => ret {| op := node; get_shape := labels_static_shape |}
    end.

(** [tf.reduce_mean(x)] over all axes: a scalar. *)
Definition tf_reduce_mean (input_tensor : Tensor) : M Tensor :=
  ret {| op := ReduceMean (op input_tensor); get_shape := [] |}.

(** ** class Piczak *)

Record Piczak : Set := {
  model_name : string;
  num_classes : Z;
  W_init : Initializer;
  b_init : Initializer;
  W_reg : option Regularizer;
  b_reg : option Regularizer
}.

(** [Piczak(model_name)] with every default of [__init__]. *)
Definition Piczak_default (name : string) : Piczak :=
  {| model_name := name; num_classes := 50;
     W_init := xavier_initializer; b_init := zeros_initializer;
     W_reg := None; b_reg := None |}.

(** first convolutional block with dropout and with max pooling *)
Definition conv_block_1 (self : Piczak) (predict_op : Tensor) (is_training : bool)
    : M Tensor :=
  predict_op <- slim_convolution predict_op 80 (57, 6) (1, 1)
                  (W_init self) (b_init self) (W_reg self) (b_reg self) "cnn_1" ;;
  predict_op <- tf_nn_relu predict_op ;;
  predict_op <- slim_dropout predict_op (1 # 2)%Q is_training "cnn_1" ;;
  slim_pool predict_op (4, 3) (1, 3).

(** second convolutional block without dropout and with max pooling *)
Definition conv_block_2 (self : Piczak) (predict_op : Tensor) : M Tensor :=
  predict_op <- slim_convolution predict_op 80 (1, 3) (1, 1)
                  (W_init self) (b_init self) (W_reg self) (b_reg self) "cnn_2" ;;
  predict_op <- tf_nn_relu predict_op ;;
  slim_pool predict_op (1, 3) (1, 3).

(** reshaping before the dense layers (the diagnostic [print]s of the shapes
    do not touch the graph and are left out) *)
Definition transpose_stage (predict_op : Tensor) : M Tensor :=
  tf_transpose predict_op [0; 2; 1; 3]%nat.

Definition merge_stage (predict_op : Tensor) : M Tensor :=
  let shx := get_shape predict_op in
  d1 <- shape_index shx 1 ;;
  n1 <- int_ d1 ;;
  d2 <- shape_index shx 2 ;;
  d3 <- shape_index shx 3 ;;
  n23 <- int_ (dim_mul d2 d3) ;;
  tf_reshape predict_op [-1; n1; n23].

Definition flatten_stage (predict_op : Tensor) : M Tensor :=
  let shx := get_shape predict_op in
  d1 <- shape_index shx 1 ;;
  n1 <- int_ d1 ;;
  d2 <- shape_index shx 2 ;;
  n2 <- int_ d2 ;;
  tf_reshape predict_op [-1; n1 * n2].

Definition reshape_stage (predict_op : Tensor) : M Tensor :=
  predict_op <- transpose_stage predict_op ;;
  predict_op <- merge_stage predict_op ;;
  flatten_stage predict_op.

(** dense part of the model with dropout, and the linear output layer *)
Definition dense_block (self : Piczak) (predict_op : Tensor) (is_training : bool)
    (scope_name : string) : M Tensor :=
  predict_op <- slim_fully_connected predict_op 5000
                  (W_init self) (b_init self) (W_reg self) (b_reg self) scope_name ;;
  predict_op <- tf_nn_relu predict_op ;;
  slim_dropout predict_op (1 # 2)%Q is_training scope_name.

Definition output_layer (self : Piczak) (predict_op : Tensor) : M Tensor :=
  slim_fully_connected predict_op (num_classes self)
    (W_init self) (b_init self) (W_reg self) (b_reg self) "output".

(** The part of the pipeline up to the flat tensor that enters the first
    dense layer. *)
Definition build_features (self : Piczak) (input_tensor : Tensor) (is_training : bool)
    : M Tensor :=
  predict_op <- conv_block_1 self input_tensor is_training ;;
  predict_op <- conv_block_2 self predict_op ;;
  reshape_stage predict_op.

Definition build_dense (self : Piczak) (predict_op : Tensor) (is_training : bool)
    : M Tensor :=
  predict_op <- dense_block self predict_op is_training "dense_1" ;;
  predict_op <- dense_block self predict_op is_training "dense_2" ;;
  output_layer self predict_op.

(** [Piczak.build_predict_op] *)
Definition build_predict_op (self : Piczak) (input_tensor : Tensor) (is_training : bool)
    : M Tensor :=
  variable_scope "piczak"
    (predict_op <- build_features self input_tensor is_training ;;
     build_dense self predict_op is_training).

(** The flat tensor inside [build_predict_op], as it is when the first dense
    layer receives it. *)
Definition flatten_output (self : Piczak) (input_tensor : Tensor) (is_training : bool)
    : M Tensor :=
  variable_scope "piczak" (build_features self input_tensor is_training).

(** [Piczak.get_loss_op] *)
Definition get_loss_op (self : Piczak) (prediction label_tensor : Tensor) : M Tensor :=
  loss <- tf_nn_sparse_softmax_cross_entropy_with_logits label_tensor prediction ;;
  tf_reduce_mean loss.

(** The names of the ten variables the pipeline creates when it is built
    under the variable scope [outer]. *)
Definition layer_scopes : list string := ["cnn_1"; "cnn_2"; "dense_1"; "dense_2"; "output"].

Definition layer_variables (outer layer : string) : list string :=
  [((outer +:+ "piczak" +:+ "/") +:+ layer +:+ "/") +:+ "weights";
   ((outer +:+ "piczak" +:+ "/") +:+ layer +:+ "/") +:+ "biases"].

Definition piczak_variables (outer : string) : list string :=
  layer_scopes ≫= layer_variables outer.

(** ** Sessions and checkpoints *)

Section Checkpoints.
Context {V : Type}.

(** A session holds the values of the initialised variables; a checkpoint
    file holds named values; the file system maps paths to checkpoints. *)
Abbreviation Session := (gmap string V).
Abbreviation Checkpoint := (gmap string V).
Abbreviation FileSystem := (gmap string (gmap string V)).

(** [tf.get_collection(tf.GraphKeys.GLOBAL_VARIABLES, scope=..)]: the
    variables whose name [re.match]es the scope, which for a scope free of
    regular-expression operators means the name starts with it. *)
Definition get_collection_GLOBAL_VARIABLES (scope_filter : string) (g : Graph)
    : list string :=
  filter (λ n, Is_true (String.prefix scope_filter n)) (var_names g).

(** [tf.train.Saver(var_list)] refuses an empty list. *)
Definition Saver (var_list : list string) : Exn + list string :=
  match var_list with
  | [] => inl ValueError
  | _ => inr var_list
  end.

(** The values of all the listed names, or [None] when one is missing. *)
Fixpoint read_all (names : list string) (m : gmap string V)
    : option (list (string * V)) :=
  match names with
  | [] => Some []
  | n :: names' =>
      match m !! n with
      | Some v => cons (n, v) <$> read_all names' m
      | None => None
      end
  end.

(** [saver.save(sess, path)]: every listed variable must be initialised. *)
Definition Saver_save (saver : list string) (sess : Session) (path : string)
    (fs : FileSystem) : Exn + FileSystem :=
  match read_all saver sess with
  | Some kvs => inr (<[path := list_to_map kvs]> fs)
  | None => inl FailedPreconditionError
  end.

(** [saver.restore(sess, path)]: the checkpoint must exist ("The passed
    save_path is not a valid checkpoint", a [ValueError]; releases of the
    library before that check raise [NotFoundError] from the restore op) and
    hold every listed variable; their values in the session are
    overwritten. *)
Definition Saver_restore (saver : list string) (sess : Session) (path : string)
    (fs : FileSystem) : Exn + Session :=
  match fs !! path with
  | None => inl ValueError
  | Some ckpt =>
      match read_all saver ckpt with
      | Some kvs => inr (list_to_map kvs ∪ sess)
      | None => inl NotFoundError
      end
  end.

(** [Piczak.save] *)
Definition save (self : Piczak) (path : string) (sess : Session)
    (g : Graph) (fs : FileSystem) : Exn + FileSystem :=
  let vars := get_collection_GLOBAL_VARIABLES "model" g in
  match Saver vars with
  | inl e => inl e
  | inr saver => Saver_save saver sess path fs
  end.

(** [Piczak.load_piczak] *)
Definition load_piczak (self : Piczak) (path : string) (sess : Session)
    (g : Graph) (fs : FileSystem) : Exn + Session :=
  let vars := get_collection_GLOBAL_VARIABLES "model" g in
  match Saver vars with
  | inl e => inl e
  | inr saver => Saver_restore saver sess path fs
  end.
End Checkpoints.

(** ** Running a node in a session *)

Definition ebind {A B} (r : Exn + A) (k : A → Exn + B) : Exn + B :=
  match r with
  | inl e => inl e
  | inr a => k a
  end.

Notation "x <-! r ;; k" := (ebind r (λ x, k))
  (at level 100, r at next level, right associativity).

Section Run.
Context {V RNG : Type}.

(** The numeric kernels of TensorFlow are not part of the repository; the
    evaluator takes them as parameters.  Only the training branch of
    dropout draws from the random generator. *)
Record Kernels : Type := {
  k_conv2d : V → V → V → Z * Z → V;                (* input, filter, bias, stride *)
  k_relu : V → V;
  k_dropout : RNG → Q → V → V * RNG;               (* tf.nn.dropout *)
  k_max_pool : V → Z * Z → Z * Z → V;
  k_transpose : V → list nat → V;
  k_reshape : V → list Z → V;
  k_fully_connected : V → V → V → V;               (* input, weights, bias *)
  k_sparse_softmax_cross_entropy : V → V → Exn + V; (* labels, logits *)
  k_reduce_mean : V → Exn + V
}.

Variable K : Kernels.
Variable sess : gmap string V.
Variable feed_dict : gmap string V.

Definition read_variable (name : string) : Exn + V :=
  match sess !! name with
  | Some v => inr v
  | None => inl FailedPreconditionError
  end.

Definition read_feed (name : string) : Exn + V :=
  match feed_dict !! name with
  | Some v => inr v
  | None => inl (InvalidArgumentError PlaceholderNotFed)
  end.

(** [sess.run(node, feed_dict)], threading the state of the random
    generator.  In inference mode [slim.dropout] is [tf.identity]. *)
Fixpoint run (n : Node) (rng : RNG) : Exn + (V * RNG) :=
  match n with
  | Placeholder name =>
      v <-! read_feed name ;; inr (v, rng)
  | Conv2D x weights biases stride =>
      r <-! run x rng ;;
      w <-! read_variable weights ;;
      b <-! read_variable biases ;;
      inr (k_conv2d K r.1 w b stride, r.2)
  | Relu x =>
      r <-! run x rng ;; inr (k_relu K r.1, r.2)
  | Dropout x keep_prob is_training =>
      r <-! run x rng ;;
      if is_training then inr (k_dropout K r.2 keep_prob r.1) else inr r
  | MaxPool x ksize stride =>
      r <-! run x rng ;; inr (k_max_pool K r.1 ksize stride, r.2)
  | Transpose x perm =>
      r <-! run x rng ;; inr (k_transpose K r.1 perm, r.2)
  | Reshape x target =>
      r <-! run x rng ;; inr (k_reshape K r.1 target, r.2)
  | FullyConnected x weights biases =>
      r <-! run x rng ;;
      w <-! read_variable weights ;;
      b <-! read_variable biases ;;
      inr (k_fully_connected K r.1 w b, r.2)
  | SparseSoftmaxCrossEntropyWithLogits labels logits =>
      rl <-! run labels rng ;;
      rx <-! run logits rl.2 ;;
      v <-! k_sparse_softmax_cross_entropy K rl.1 rx.1 ;;
      inr (v, rx.2)
  | ReduceMean x =>
      r <-! run x rng ;;
      v <-! k_reduce_mean K r.1 ;;
      inr (v, r.2)
  end.

(** The value alone. *)
Definition run_value (n : Node) (rng : RNG) : Exn + V :=
  r <-! run n rng ;; inr r.1.
End Run.

Arguments Kernels : clear implicits.

(** The variables a node reads. *)
Fixpoint reads (n : Node) : list string :=
  match n with
  | Placeholder _ => []
  | Conv2D x w b _ | FullyConnected x w b => reads x ++ [w; b]
  | Relu x | Dropout x _ _ | MaxPool x _ _ | Transpose x _ | Reshape x _
  | ReduceMean x => reads x
  | SparseSoftmaxCrossEntropyWithLogits l x => reads l ++ reads x
  end.

(** The dropout layers of a node, outermost first: keep probability and
    training flag. *)
Fixpoint dropout_layers (n : Node) : list (Q * bool) :=
  match n with
  | Placeholder _ => []
  | Dropout x keep_prob is_training => (keep_prob, is_training) :: dropout_layers x
  | Conv2D x _ _ _ | FullyConnected x _ _ | Relu x | MaxPool x _ _
  | Transpose x _ | Reshape x _ | ReduceMean x => dropout_layers x
  | SparseSoftmaxCrossEntropyWithLogits l x => dropout_layers l ++ dropout_layers x
  end.

(** ** The loss kernels over the reals

    Values of the loss computation: the logits matrix, the integer labels,
    the vector of per-example losses and the scalar mean.  The tensors of
    the code are float32; here the arithmetic is that of the reals, so a
    value of the model is what the kernel approximates, not the float it
    returns: rounding, overflow and the order of the additions are not
    modelled.  What is modelled of the floats is [NaN], the result the GPU
    kernel gives for a label out of range. *)
Module RealLoss.
Local Open Scope R_scope.

(** Where the kernel runs. *)
Inductive Device : Set := CPU | GPU.

Inductive Number : Type :=
| Real (r : R)
| NaN.

Inductive Value : Type :=
| Scalar (x : Number)
| Vector (v : list Number)
| Matrix (m : list (list R))
| Labels (l : list Z).

Definition Rsum (l : list R) : R := foldr Rplus 0 l.

Definition row_max (row : list R) : R :=
  match row with
  | [] => 0
  | x :: t => foldl Rmax x t
  end.

Definition valid_label (label : Z) (row : list R) : bool :=
  ((0 <=? label) && (label <? Z.of_nat (length row)))%Z.

(** One row of the kernel of [SparseSoftmaxCrossEntropyWithLogits] for a
    label in range: the logits are shifted by their maximum, and the loss is
    log (sum (exp shifted)) - shifted[label]. *)
Definition xent_value (label : Z) (row : list R) : R :=
  let shifted := (λ x, x - row_max row) <$> row in
  ln (Rsum (exp <$> shifted)) - nth (Z.to_nat label) shifted 0.

(** A label outside [0, num_classes) makes the CPU kernel raise
    [InvalidArgumentError]; the GPU kernel does not check, and the loss of
    the row is [NaN]. *)
Definition xent_row (device : Device) (label : Z) (row : list R) : Exn + Number :=
  if valid_label label row then inr (Real (xent_value label row))
  else match device with
       | CPU => inl (InvalidArgumentError LabelOutOfRange)
       | GPU => inr NaN
       end.

Fixpoint xent_rows (device : Device) (labels : list Z) (logits : list (list R))
    : Exn + list Number :=
  match labels, logits with
  | [], [] => inr []
  | y :: labels', row :: logits' =>
      l <-! xent_row device y row ;;
      ls <-! xent_rows device labels' logits' ;;
      inr (l :: ls)
  | _, _ => inl (InvalidArgumentError FirstDimensionMismatch)
  end.

(** The kernel compares the first dimensions of the two tensors before it
    looks at any label, on either device. *)
Definition sparse_softmax_cross_entropy (device : Device) (labels logits : Value)
    : Exn + Value :=
  match labels, logits with
  | Labels y, Matrix m =>
      if bool_decide (length y = length m)
      then ls <-! xent_rows device y m ;; inr (Vector ls)
      else inl (InvalidArgumentError FirstDimensionMismatch)
  | _, _ => inl (InvalidArgumentError UnsupportedOperand)
  end.

(** The sum over all elements divided by their number. *)
Definition mean (l : list R) : R := Rsum l / INR (length l).

(** The numbers of a list when none of them is [NaN]. *)
Fixpoint reals (v : list Number) : option (list R) :=
  match v with
  | [] => Some []
  | Real r :: v' => cons r <$> reals v'
  | NaN :: _ => None
  end.

(** The mean of a tensor with a [NaN] is [NaN], and so is the mean of a
    tensor with no element (0 / 0). *)
Definition mean_number (v : list Number) : Number :=
  match reals v with
  | Some (r :: rs) => Real (mean (r :: rs))
  | _ => NaN
  end.

(** [tf.reduce_mean] over all axes. *)
Definition reduce_mean (x : Value) : Exn + Value :=
  match x with
  | Scalar r => inr (Scalar r)
  | Vector v => inr (Scalar (mean_number v))
  | Matrix m => inr (Scalar (mean_number (Real <$> concat m)))
  | Labels _ => inl (InvalidArgumentError UnsupportedOperand)
  end.

(** Any kernel set over [Value], with the two loss kernels above. *)
Definition with_loss_kernels {RNG} (device : Device) (K : Kernels Value RNG)
    : Kernels Value RNG :=
  {| k_conv2d := k_conv2d K; k_relu := k_relu K; k_dropout := k_dropout K;
     k_max_pool := k_max_pool K; k_transpose := k_transpose K;
     k_reshape := k_reshape K; k_fully_connected := k_fully_connected K;
     k_sparse_softmax_cross_entropy := sparse_softmax_cross_entropy device;
     k_reduce_mean := reduce_mean |}.

(** The textbook definitions the specification words refer to, written
    with the sum of the Standard Library and independent of the kernels
    above: the softmax of a row, the cross-entropy of a row against a class
    index, and the arithmetic mean over the batch of the per-example
    values. *)
Definition softmax (row : list R) (i : nat) : R :=
  exp (nth i row 0) / fold_right Rplus 0 (map exp row).

Definition cross_entropy (label : Z) (row : list R) : R :=
  - ln (softmax row (Z.to_nat label)).

Definition mean_cross_entropy (labels : list Z) (logits : list (list R)) : R :=
  fold_right Rplus 0 (zip_with cross_entropy labels logits)
  / INR (length labels).

End RealLoss.

(** ** Definitions used by the statements *)

(** A graph is fresh for the pipeline when none of its ten names is taken. *)
Definition fresh_for_piczak (g : Graph) : Prop :=
  ∀ n, n ∈ piczak_variables (scope g) → n ∉ var_names g.

(** [adds names g g']: [g'] is [g] with variables of these names appended,
    under the same scope. *)
Definition adds (names : list string) (g g' : Graph) : Prop :=
  scope g' = scope g ∧ var_names g' = var_names g ++ names.

(** The names [tf.get_variable] gives the two variables of a layer of the
    pipeline built under the scope [s]. *)
Definition weights_of (s layer : string) : string :=
  ((s +:+ "piczak" +:+ "/") +:+ layer +:+ "/") +:+ "weights".

Definition biases_of (s layer : string) : string :=
  ((s +:+ "piczak" +:+ "/") +:+ layer +:+ "/") +:+ "biases".

(** The nodes a successful [build_predict_op] chains: the two convolutional
    blocks and the reshaping stage over the input [x], with the two reshape
    targets, then the dense part over the flat tensor. *)
Definition features_node (s : string) (x : Node) (is_training : bool)
    (tg1 tg2 : list Z) : Node :=
  Reshape
    (Reshape
       (Transpose
          (MaxPool
             (Relu
                (Conv2D
                   (MaxPool
                      (Dropout
                         (Relu (Conv2D x (weights_of s "cnn_1") (biases_of s "cnn_1") (1, 1)))
                         (1 # 2)%Q is_training)
                      (4, 3) (1, 3))
                   (weights_of s "cnn_2") (biases_of s "cnn_2") (1, 1)))
             (1, 3) (1, 3))
          [0; 2; 1; 3]%nat)
       tg1)
    tg2.

Definition dense_node (s : string) (x : Node) (is_training : bool) : Node :=
  FullyConnected
    (Dropout
       (Relu
          (FullyConnected
             (Dropout
                (Relu (FullyConnected x (weights_of s "dense_1") (biases_of s "dense_1")))
                (1 # 2)%Q is_training)
             (weights_of s "dense_2") (biases_of s "dense_2")))
       (1 # 2)%Q is_training)
    (weights_of s "output") (biases_of s "output").

(** Number of elements of a fully known shape. *)
Definition product (l : list Z) : Z := foldr Z.mul 1 l.

(** A reference input: a placeholder of shape (N, 60, 41, 1). *)
Definition spectrogram (N T : Z) : Tensor :=
  {| op := Placeholder "spectrogram";
     get_shape := [Some N; Some 60; Some T; Some 1] |}.

Section InferenceValue.
Context {V RNG : Type}.
Variable K : Kernels V RNG.

(** The value the pipeline computes from the value of its input when no
    dropout layer is in training mode: convolution, rectifier, pooling,
    convolution, rectifier, pooling, the three reshaping steps, and the
    three dense layers with two rectifiers, reading the ten variables of
    the scope [s] from the session. *)
Definition inference_value (sess : gmap string V) (s : string)
    (tg1 tg2 : list Z) (v : V) : Exn + V :=
  w1 <-! read_variable sess (weights_of s "cnn_1") ;;
  b1 <-! read_variable sess (biases_of s "cnn_1") ;;
  let a1 := k_max_pool K (k_relu K (k_conv2d K v w1 b1 (1, 1))) (4, 3) (1, 3) in
  w2 <-! read_variable sess (weights_of s "cnn_2") ;;
  b2 <-! read_variable sess (biases_of s "cnn_2") ;;
  let a2 := k_max_pool K (k_relu K (k_conv2d K a1 w2 b2 (1, 1))) (1, 3) (1, 3) in
  let f := k_reshape K (k_reshape K (k_transpose K a2 [0; 2; 1; 3]%nat) tg1) tg2 in
  w3 <-! read_variable sess (weights_of s "dense_1") ;;
  b3 <-! read_variable sess (biases_of s "dense_1") ;;
  let a3 := k_relu K (k_fully_connected K f w3 b3) in
  w4 <-! read_variable sess (weights_of s "dense_2") ;;
  b4 <-! read_variable sess (biases_of s "dense_2") ;;
  let a4 := k_relu K (k_fully_connected K a3 w4 b4) in
  w5 <-! read_variable sess (weights_of s "output") ;;
  b5 <-! read_variable sess (biases_of s "output") ;;
  inr (k_fully_connected K a4 w5 b5).

End InferenceValue.

(** A small kernel set for running examples: every tensor is a single
    integer, a layer multiplies by its weight and adds its bias, and dropout
    in training mode zeroes the value on odd generator states. *)
Definition scalar_kernels : Kernels Z nat :=
  {| k_conv2d := λ x w b _, x * w + b;
     k_relu := Z.max 0;
     k_dropout := λ rng _ x, (if Nat.even rng then x else 0, S rng);
     k_max_pool := λ x _ _, x;
     k_transpose := λ x _, x;
     k_reshape := λ x _, x;
     k_fully_connected := λ x w b, x * w + b;
     k_sparse_softmax_cross_entropy :=
       λ _ _, inl (InvalidArgumentError UnsupportedOperand);
     k_reduce_mean := λ x, inr x |}.

(** A session in which every listed variable holds [v]. *)
Definition constant_session {V} (names : list string) (v : V) : gmap string V :=
  list_to_map ((λ n, (n, v)) <$> names).

(** The tensor [build_predict_op] returns, or the input when it raises. *)
Definition built (r : (Exn + Tensor) * Graph) (default : Tensor) : Tensor :=
  match r.1 with
  | inr t => t
  | inl _ => default
  end.

Definition reference_model : Piczak := Piczak_default "piczak".

Definition reference_inference : Tensor :=
  built (build_predict_op reference_model (spectrogram 1 41) false empty_graph)
        (spectrogram 1 41).

Definition reference_graph : Graph :=
  (build_predict_op reference_model (spectrogram 1 41) false empty_graph).2.

Definition reference_training : Tensor :=
  built (build_predict_op reference_model (spectrogram 1 41) true empty_graph)
        (spectrogram 1 41).

(** The graph a caller gets with one variable of its own in the namespace
    "model" and the pipeline built at the top level, as the class builds it. *)
Definition graph_with_step : Graph :=
  (get_variable "model/global_step" [] zeros_initializer None empty_graph).2.

Definition top_level_graph_with_step : Graph :=
  (build_predict_op reference_model (spectrogram 1 41) false graph_with_step).2.

(** The pipeline built inside [with tf.variable_scope("model")]. *)
Definition model_scope : Graph := set_scope "model/" empty_graph.

Definition model_scope_inference : Tensor :=
  built (build_predict_op reference_model (spectrogram 1 41) false model_scope)
        (spectrogram 1 41).

Definition model_scope_graph : Graph :=
  (build_predict_op reference_model (spectrogram 1 41) false model_scope).2.

(** A kernel set over the values of the loss computation in which the
    layers of the network do nothing; the loss ops do not use them. *)
Definition loss_only_kernels (device : RealLoss.Device)
    : Kernels RealLoss.Value unit :=
  RealLoss.with_loss_kernels device
    {| k_conv2d := λ x _ _ _, x;
       k_relu := λ x, x;
       k_dropout := λ rng _ x, (x, rng);
       k_max_pool := λ x _ _, x;
       k_transpose := λ x _, x;
       k_reshape := λ x _, x;
       k_fully_connected := λ x _ _, x;
       k_sparse_softmax_cross_entropy :=
         λ _ _, inl (InvalidArgumentError UnsupportedOperand);
       k_reduce_mean := λ x, inr x |}.

Definition logits_placeholder (N C : Z) : Tensor :=
  {| op := Placeholder "logits"; get_shape := [Some N; Some C] |}.

Definition labels_placeholder (N : Z) : Tensor :=
  {| op := Placeholder "labels"; get_shape := [Some N] |}.



(** ** Definitions used by the further properties *)

(** The library refuses a variable with more than 2^63 - 1 entries, and
    its shapes count entries in 64-bit integers. *)
Definition max_entries : Z := 2 ^ 63 - 1.

Definition within_limit (vs : list VarSpec) : Prop :=
  Forall (λ v, product (var_shape v) ≤ max_entries) vs.

(** A batch of known size with this many entries per example fits. *)
Definition batch_within_limit (n : Dim) (per_example : Z) : Prop :=
  ∀ N, n = Some N → 0 ≤ N ∧ N * per_example ≤ max_entries.

(** [extends g g']: [g'] has the scope of [g] and the variables of [g]
    followed by new ones. *)
Definition extends (g g' : Graph) : Prop :=
  scope g' = scope g ∧ ∃ vs, global_variables g' = global_variables g ++ vs.

(** A computation keeps the graph when, whatever it returns or raises, the
    graph it leaves extends the graph it started from. *)
Definition keeps {A} (m : M A) : Prop := ∀ g, extends g (m g).2.

(** [g] with the variables [vs] appended. *)
Definition with_variables (g : Graph) (vs : list VarSpec) : Graph :=
  {| scope := scope g; global_variables := global_variables g ++ vs |}.

(** The two variables of a layer, as the layer functions create them. *)
Definition layer_specs (self : Piczak) (s layer : string) (weights_shape : list Z)
    (num_outputs : Z) : list VarSpec :=
  [{| var_name := weights_of s layer; var_shape := weights_shape;
      var_init := W_init self; var_reg := W_reg self |};
   {| var_name := biases_of s layer; var_shape := [num_outputs];
      var_init := b_init self; var_reg := b_reg self |}].

Definition conv_specs (self : Piczak) (s : string) (channels : Z) : list VarSpec :=
  layer_specs self s "cnn_1" [57; 6; channels; 80] 80
  ++ layer_specs self s "cnn_2" [1; 3; 80; 80] 80.

Definition dense_specs (self : Piczak) (s : string) (features : Z) : list VarSpec :=
  layer_specs self s "dense_1" [features; 5000] 5000
  ++ layer_specs self s "dense_2" [5000; 5000] 5000
  ++ layer_specs self s "output" [5000; num_classes self] (num_classes self).

(** The sizes of the two spatial axes after the two convolutional blocks,
    window by window in the order of the code: convolution (57, 6), pooling
    (4, 3) with stride (1, 3), convolution (1, 3), pooling (1, 3) with
    stride (1, 3). *)
Definition pooled_sizes (h w : Dim) : Exn + (Dim * Dim) :=
  h1 <-! windowed_output_size h 57 1 ;;
  w1 <-! windowed_output_size w 6 1 ;;
  h2 <-! windowed_output_size h1 4 1 ;;
  w2 <-! windowed_output_size w1 3 3 ;;
  h3 <-! windowed_output_size h2 1 1 ;;
  w3 <-! windowed_output_size w2 3 1 ;;
  h4 <-! windowed_output_size h3 1 1 ;;
  w4 <-! windowed_output_size w3 3 3 ;;
  inr (h4, w4).

(** The node of the two convolutional blocks over [x]. *)
Definition conv_node (s : string) (x : Node) (is_training : bool) : Node :=
  MaxPool
    (Relu
       (Conv2D
          (MaxPool
             (Dropout
                (Relu (Conv2D x (weights_of s "cnn_1") (biases_of s "cnn_1") (1, 1)))
                (1 # 2)%Q is_training)
             (4, 3) (1, 3))
          (weights_of s "cnn_2") (biases_of s "cnn_2") (1, 1)))
    (1, 3) (1, 3).

(** Two outcomes of a construction agree when they leave the same graph and
    either raise the same exception or return tensors of the same shape. *)
Definition same_outcome (r r' : (Exn + Tensor) * Graph) : Prop :=
  r.2 = r'.2
  ∧ match r.1, r'.1 with
    | inl e, inl e' => e = e'
    | inr t, inr t' => get_shape t = get_shape t'
    | _, _ => False
    end.

(** A computation that never touches the graph. *)
Definition graph_free {A} (m : M A) : Prop := ∀ g, (m g).2 = g.

(** Placeholders for logits and labels whose sizes are not known when the
    graph is built, as with a batch of any size. *)
Definition unknown_logits : Tensor :=
  {| op := Placeholder "logits"; get_shape := [None; None] |}.

Definition unknown_labels : Tensor :=
  {| op := Placeholder "labels"; get_shape := [None] |}.

(** The loss of a batch: [get_loss_op] builds the op on the two
    placeholders, and the session runs it on the device with the logits
    matrix and the labels fed. *)
Definition loss_value (self : Piczak) (device : RealLoss.Device)
    (labels : list Z) (logits : list (list R)) : Exn + RealLoss.Value :=
  match (get_loss_op self unknown_logits unknown_labels empty_graph).1 with
  | inr loss =>
      run_value (loss_only_kernels device) ∅
        {[ "logits" := RealLoss.Matrix logits; "labels" := RealLoss.Labels labels ]}
        (op loss) tt
  | inl e => inl e
  end.


(** * Properties *)

(** ** Names *)

Lemma append_assoc (a b c : string) : (a +:+ b) +:+ c = a +:+ (b +:+ c).
Proof.
  induction a as [|x a IH]; [done|].
  change (String x ((a +:+ b) +:+ c) = String x (a +:+ (b +:+ c))).
  by rewrite IH.
Qed.

(** Two variables of the pipeline under one outer scope are equal only when
    their layer and their role are. *)
Lemma variable_name_eq (s l1 v1 l2 v2 : string) :
  ((s +:+ "piczak" +:+ "/") +:+ l1 +:+ "/") +:+ v1
  = ((s +:+ "piczak" +:+ "/") +:+ l2 +:+ "/") +:+ v2 →
  (l1 +:+ "/") +:+ v1 = (l2 +:+ "/") +:+ v2.
Proof.
  rewrite !append_assoc. intros H%(inj (String.app s)).
  by apply (inj (String.app "piczak/")) in H.
Qed.

Lemma piczak_variables_eq (s : string) :
  piczak_variables s = String.app s <$> piczak_variables "".
Proof.
  unfold piczak_variables, layer_scopes, layer_variables. cbn [mbind list_bind fmap list_fmap app].
  by rewrite !append_assoc.
Qed.

Lemma prefix_app (p s t : string) :
  String.prefix p s = true → String.prefix p (s +:+ t) = true.
Proof.
  revert s. induction p as [|a p IH]; intros [|b s]; simpl; try done.
  - by destruct t.
  - destruct (Ascii.ascii_dec a b); [apply IH | done].
Qed.

(** ** Stepping through the construction monad *)

Lemma adds_trans l1 l2 g g1 g2 :
  adds l1 g g1 → adds l2 g1 g2 → adds (l1 ++ l2) g g2.
Proof.
  intros [Hs1 Hv1] [Hs2 Hv2]. split; [congruence|].
  by rewrite Hv2, Hv1, app_assoc.
Qed.

Lemma bind_inr {A B} (m : M A) (k : A → M B) g b g' :
  bind m k g = (inr b, g') →
  ∃ a g1, m g = (inr a, g1) ∧ k a g1 = (inr b, g').
Proof.
  unfold bind. destruct (m g) as [[e|a] g1]; [done | eauto].
Qed.

Lemma bind_ok {A B} (m : M A) (k : A → M B) g a g1 :
  m g = (inr a, g1) → bind m k g = k a g1.
Proof. unfold bind. by intros ->. Qed.

Lemma bind_fail {A B} (m : M A) (k : A → M B) g e g1 :
  m g = (inl e, g1) → bind m k g = (inl e, g1).
Proof. unfold bind. by intros ->. Qed.

Lemma variable_scope_inr {A} name (body : M A) g a g' :
  variable_scope name body g = (inr a, g') →
  ∃ g1, body (set_scope (scope g +:+ name +:+ "/") g) = (inr a, g1)
        ∧ g' = set_scope (scope g) g1.
Proof.
  unfold variable_scope.
  destruct (body _) as [r g1]. simpl. intros [= -> <-]. eauto.
Qed.

Lemma variable_scope_run {A} name (body : M A) g r g1 :
  body (set_scope (scope g +:+ name +:+ "/") g) = (r, g1) →
  variable_scope name body g = (r, set_scope (scope g) g1).
Proof. unfold variable_scope. by intros ->. Qed.

Lemma adds_scoped l s g g1 :
  adds l (set_scope s g) g1 → adds l g (set_scope (scope g) g1).
Proof. by intros [_ Hv]. Qed.

Lemma get_variable_fresh name shape i r g :
  scope g +:+ name ∉ var_names g →
  forallb (Z.leb 0) shape = true →
  ∃ g', get_variable name shape i r g = (inr (scope g +:+ name), g')
        ∧ adds [scope g +:+ name] g g'.
Proof.
  intros Hfresh Hshape. unfold get_variable.
  rewrite bool_decide_eq_false_2, Hshape by done.
  eexists. split; [done|]. split; [done|].
  unfold var_names. simpl. by rewrite fmap_app.
Qed.

Lemma get_variable_inr name shape i r g n g' :
  get_variable name shape i r g = (inr n, g') →
  n = scope g +:+ name ∧ adds [n] g g'.
Proof.
  unfold get_variable. case_bool_decide; [done|].
  destruct (forallb _ _); [|done]. intros [= <- <-].
  split; [done|]. split; [done|].
  unfold var_names. simpl. by rewrite fmap_app.
Qed.

Lemma lift_inr {A} (r : Exn + A) g a g' :
  lift r g = (inr a, g') → r = inr a ∧ g' = g.
Proof. unfold lift. by intros [= -> ->]. Qed.

(** ** What each layer adds to the graph when it succeeds *)

Lemma slim_convolution_inr x out ks st wi bi wr br sc g t g' :
  slim_convolution x out ks st wi bi wr br sc g = (inr t, g') →
  op t = Conv2D (op x) ((scope g +:+ sc +:+ "/") +:+ "weights")
                       ((scope g +:+ sc +:+ "/") +:+ "biases") st
  ∧ adds [(scope g +:+ sc +:+ "/") +:+ "weights";
          (scope g +:+ sc +:+ "/") +:+ "biases"] g g'.
Proof.
  intros (g1 & H & ->)%variable_scope_inr.
  destruct (get_shape x) as [|n [|h [|w [|[c|] [|??]]]]]; try done.
  apply bind_inr in H as (wn & g2 & [-> Hw]%get_variable_inr & H).
  apply bind_inr in H as (bn & g3 & [-> Hb]%get_variable_inr & H).
  apply bind_inr in H as (h' & g4 & [_ ->]%lift_inr & H).
  apply bind_inr in H as (w' & g5 & [_ ->]%lift_inr & H).
  injection H as <- <-.
  destruct Hw as [Hw1 Hw2]. rewrite Hw1 in *. simpl in *.
  split; [done|].
  apply adds_scoped with (s := scope g +:+ sc +:+ "/").
  eapply (adds_trans [_] [_]); [split; eassumption | done].
Qed.

Lemma slim_fully_connected_inr x out wi bi wr br sc g t g' :
  slim_fully_connected x out wi bi wr br sc g = (inr t, g') →
  op t = FullyConnected (op x) ((scope g +:+ sc +:+ "/") +:+ "weights")
                               ((scope g +:+ sc +:+ "/") +:+ "biases")
  ∧ adds [(scope g +:+ sc +:+ "/") +:+ "weights";
          (scope g +:+ sc +:+ "/") +:+ "biases"] g g'.
Proof.
  intros (g1 & H & ->)%variable_scope_inr.
  case_bool_decide; [done|].
  destruct (last _) as [[d|]|]; try done.
  apply bind_inr in H as (wn & g2 & [-> Hw]%get_variable_inr & H).
  apply bind_inr in H as (bn & g3 & [-> Hb]%get_variable_inr & H).
  injection H as <- <-.
  destruct Hw as [Hw1 Hw2]. rewrite Hw1 in *. simpl in *.
  split; [done|].
  apply adds_scoped with (s := scope g +:+ sc +:+ "/").
  eapply (adds_trans [_] [_]); [split; eassumption | done].
Qed.

Lemma tf_nn_relu_eq x g :
  tf_nn_relu x g = (inr {| op := Relu (op x); get_shape := get_shape x |}, g).
Proof. done. Qed.

Lemma slim_dropout_eq x keep tr sc g :
  slim_dropout x keep tr sc g
  = (inr {| op := Dropout (op x) keep tr; get_shape := get_shape x |}, g).
Proof. unfold slim_dropout, variable_scope, ret. simpl. by destruct g. Qed.

Lemma slim_pool_inr x ks st g t g' :
  slim_pool x ks st g = (inr t, g') →
  op t = MaxPool (op x) ks st ∧ g' = g.
Proof.
  unfold slim_pool.
  destruct (get_shape x) as [|n [|h [|w [|c [|??]]]]]; try done.
  intros H.
  apply bind_inr in H as (h' & g4 & [_ ->]%lift_inr & H).
  apply bind_inr in H as (w' & g5 & [_ ->]%lift_inr & H).
  by injection H as <- <-.
Qed.

Lemma tf_transpose_inr x perm g t g' :
  tf_transpose x perm g = (inr t, g') → op t = Transpose (op x) perm ∧ g' = g.
Proof.
  unfold tf_transpose. case_bool_decide; [|done].
  destruct (mapM _ _); [|done]. by intros [= <- <-].
Qed.

Lemma tf_reshape_inr x target g t g' :
  tf_reshape x target g = (inr t, g') → op t = Reshape (op x) target ∧ g' = g.
Proof.
  unfold tf_reshape. repeat case_match; try done; by intros [= <- <-].
Qed.

Lemma int_inr d g v g' : int_ d g = (inr v, g') → d = Some v ∧ g' = g.
Proof. destruct d; [|done]. by intros [= <- <-]. Qed.

Lemma shape_index_inr shx i g d g' :
  shape_index shx i g = (inr d, g') → shx !! i = Some d ∧ g' = g.
Proof. unfold shape_index. destruct (shx !! i); [|done]. by intros [= <- <-]. Qed.

Lemma reshape_stage_inr x g t g' :
  reshape_stage x g = (inr t, g') →
  (∃ tg1 tg2, op t = Reshape (Reshape (Transpose (op x) [0; 2; 1; 3]%nat) tg1) tg2)
  ∧ g' = g.
Proof.
  unfold reshape_stage, transpose_stage, merge_stage, flatten_stage. intros H.
  apply bind_inr in H as (t1 & g1 & [Ht1 ->]%tf_transpose_inr & H).
  apply bind_inr in H as (t2 & g2 & H2 & H).
  apply bind_inr in H2 as (? & ? & [_ ->]%shape_index_inr & H2).
  apply bind_inr in H2 as (? & ? & [_ ->]%int_inr & H2).
  apply bind_inr in H2 as (? & ? & [_ ->]%shape_index_inr & H2).
  apply bind_inr in H2 as (? & ? & [_ ->]%shape_index_inr & H2).
  apply bind_inr in H2 as (? & ? & [_ ->]%int_inr & H2).
  apply tf_reshape_inr in H2 as [Ht2 ->].
  apply bind_inr in H as (? & ? & [_ ->]%shape_index_inr & H).
  apply bind_inr in H as (? & ? & [_ ->]%int_inr & H).
  apply bind_inr in H as (? & ? & [_ ->]%shape_index_inr & H).
  apply bind_inr in H as (? & ? & [_ ->]%int_inr & H).
  apply tf_reshape_inr in H as [Ht ->].
  split; [|done]. do 2 eexists. by rewrite Ht, Ht2, Ht1.
Qed.

(** ** The node and the variables a successful build produces *)

Lemma build_features_inr p x tr s g t g' :
  scope g = s +:+ "piczak" +:+ "/" →
  build_features p x tr g = (inr t, g') →
  (∃ tg1 tg2, op t = features_node s (op x) tr tg1 tg2)
  ∧ adds [weights_of s "cnn_1"; biases_of s "cnn_1";
          weights_of s "cnn_2"; biases_of s "cnn_2"] g g'.
Proof.
  intros Hs H. unfold build_features, conv_block_1, conv_block_2 in H.
  apply bind_inr in H as (t1 & g1 & H1 & H).
  apply bind_inr in H1 as (c1 & gc1 & [Hc1 Ha1]%slim_convolution_inr & H1).
  apply bind_inr in H1 as (? & ? & [= <- <-] & H1).
  apply bind_inr in H1 as (? & ? & Hd & H1).
  rewrite slim_dropout_eq in Hd. injection Hd as <- <-.
  apply slim_pool_inr in H1 as [Hp1 ->]. simpl in Hp1.
  apply bind_inr in H as (t2 & g2 & H2 & H).
  apply bind_inr in H2 as (c2 & gc2 & [Hc2 Ha2]%slim_convolution_inr & H2).
  apply bind_inr in H2 as (? & ? & [= <- <-] & H2).
  apply slim_pool_inr in H2 as [Hp2 ->]. simpl in Hp2.
  apply reshape_stage_inr in H as [(tg1 & tg2 & Ht) ->].
  split.
  - exists tg1, tg2. rewrite Ht, Hp2, Hc2, Hp1, Hc1.
    destruct Ha1 as [-> _]. by rewrite Hs.
  - pose proof (adds_trans _ _ _ _ _ Ha1 Ha2) as Ha.
    destruct Ha1 as [Hs1 _]. rewrite Hs1, Hs in Ha. exact Ha.
Qed.

Lemma build_dense_inr p x tr s g t g' :
  scope g = s +:+ "piczak" +:+ "/" →
  build_dense p x tr g = (inr t, g') →
  op t = dense_node s (op x) tr
  ∧ adds [weights_of s "dense_1"; biases_of s "dense_1";
          weights_of s "dense_2"; biases_of s "dense_2";
          weights_of s "output"; biases_of s "output"] g g'.
Proof.
  intros Hs H. unfold build_dense, dense_block, output_layer in H.
  apply bind_inr in H as (t1 & g1 & H1 & H).
  apply bind_inr in H1 as (c1 & gc1 & [Hc1 Ha1]%slim_fully_connected_inr & H1).
  apply bind_inr in H1 as (? & ? & [= <- <-] & H1).
  rewrite slim_dropout_eq in H1. injection H1 as <- <-.
  apply bind_inr in H as (t2 & g2 & H2 & H).
  apply bind_inr in H2 as (c2 & gc2 & [Hc2 Ha2]%slim_fully_connected_inr & H2).
  apply bind_inr in H2 as (? & ? & [= <- <-] & H2).
  rewrite slim_dropout_eq in H2. injection H2 as <- <-.
  apply slim_fully_connected_inr in H as [Hc3 Ha3].
  pose proof (adds_trans _ _ _ _ _ (adds_trans _ _ _ _ _ Ha1 Ha2) Ha3) as Ha.
  destruct Ha1 as [Hs1 _]. destruct Ha2 as [Hs2 _].
  rewrite Hs2, Hs1, Hs in Ha, Hc3. rewrite Hs1, Hs in Hc2. rewrite Hs in Hc1.
  split; [|exact Ha].
  rewrite Hc3. simpl. rewrite Hc2. simpl. by rewrite Hc1.
Qed.

Lemma piczak_variables_unfold s :
  piczak_variables s =
  [weights_of s "cnn_1"; biases_of s "cnn_1"; weights_of s "cnn_2"; biases_of s "cnn_2";
   weights_of s "dense_1"; biases_of s "dense_1";
   weights_of s "dense_2"; biases_of s "dense_2";
   weights_of s "output"; biases_of s "output"].
Proof. done. Qed.

(** A successful build yields the node of the pipeline over the input and
    appends exactly the ten variables of the pipeline to the graph. *)
Lemma build_predict_op_inr p x tr g t g' :
  build_predict_op p x tr g = (inr t, g') →
  (∃ tg1 tg2,
     op t = dense_node (scope g) (features_node (scope g) (op x) tr tg1 tg2) tr)
  ∧ adds (piczak_variables (scope g)) g g'.
Proof.
  intros (g1 & H & ->)%variable_scope_inr.
  apply bind_inr in H as (f & g2 & Hf & Hd).
  apply (build_features_inr _ _ _ (scope g)) in Hf as [(tg1 & tg2 & Hf) Ha1]; [|done].
  apply (build_dense_inr _ _ _ (scope g)) in Hd as [Hd Ha2];
    [|by destruct Ha1 as [-> _]].
  split.
  - exists tg1, tg2. by rewrite Hd, Hf.
  - apply adds_scoped with (s := scope g +:+ "piczak" +:+ "/").
    rewrite piczak_variables_unfold. exact (adds_trans _ _ _ _ _ Ha1 Ha2).
Qed.

(** ** Layers that succeed *)

Lemma known_elems_known (l : list Z) : known_elems (Some <$> l) = product l.
Proof.
  induction l as [|d l IH]; [done|].
  change (d * known_elems (Some <$> l) = d * product l). by rewrite IH.
Qed.

Lemma unknown_dims_known (l : list Z) : unknown_dims (Some <$> l) = 0%nat.
Proof. induction l as [|d l IH]; [done | exact IH]. Qed.

Lemma product_pos (l : list Z) : Forall (λ d, 0 < d) l → 0 < product l.
Proof. induction 1; simpl; lia. Qed.

Lemma requested_known (l : list Z) :
  Forall (λ d, 0 < d) l →
  ((λ d, if d =? -1 then None else Some d) <$> l : Shape) = Some <$> l
  ∧ existsb (λ d, d <? -1) l = false.
Proof.
  induction 1 as [|d l Hd _ [IH1 IH2]]; csimpl; [done|].
  rewrite IH1, IH2. destruct (Z.eqb_spec d (-1)); [lia|].
  destruct (Z.ltb_spec d (-1)); [lia | done].
Qed.

Lemma fill_known (v : Z) (l : list Z) :
  ((λ d : Dim, match d with None => Some v | Some w => Some w end) <$> (Some <$> l))
  = Some <$> l.
Proof. induction l as [|d l IH]; csimpl; [done | by rewrite IH]. Qed.

(** Reshaping to [-1 :: rest] when the sizes after the batch axis are known
    and multiply to the same positive number: the batch axis is kept, known
    or not. *)
Lemma tf_reshape_batch x n dims rest g :
  get_shape x = n :: (Some <$> dims) →
  Forall (λ d, 0 < d) rest →
  product dims = product rest →
  tf_reshape x (-1 :: rest) g
  = (inr {| op := Reshape (op x) (-1 :: rest);
            get_shape := n :: (Some <$> rest) |}, g).
Proof.
  intros Hx Hrest Hprod. unfold tf_reshape. rewrite Hx. cbv zeta.
  destruct (requested_known rest Hrest) as [Hout Hneg].
  pose proof (product_pos rest Hrest) as Hpos.
  assert (existsb (λ d, d <? -1) (-1 :: rest) = false) as -> by exact Hneg.
  assert (((λ d, if d =? -1 then None else Some d) <$> (-1 :: rest) : Shape)
          = None :: (Some <$> rest)) as -> by (csimpl; by rewrite Hout).
  assert (unknown_dims (None :: (Some <$> rest)) = 1%nat) as ->
    by (change (S (unknown_dims (Some <$> rest)) = 1%nat);
        by rewrite unknown_dims_known).
  assert (known_elems (None :: (Some <$> rest)) = product rest) as ->
    by apply known_elems_known.
  destruct n as [N|].
  - change (Some N :: (Some <$> dims)) with (Some <$> (N :: dims)).
    rewrite unknown_dims_known, known_elems_known.
    change (product (N :: dims)) with (N * product dims). rewrite Hprod.
    destruct (Z.ltb_spec 0 (product rest)); [|lia].
    rewrite Z_mod_mult, Z.eqb_refl, Z_div_mult by lia.
    csimpl. by rewrite fill_known.
  - change (unknown_dims (@cons Dim None (Some <$> dims)))
      with (S (unknown_dims (Some <$> dims))).
    by rewrite unknown_dims_known.
Qed.

(** The three steps of the reshaping stage on a tensor with known, positive
    height, width and channel sizes. *)
Lemma reshape_stage_steps x n H W C g :
  get_shape x = [n; Some H; Some W; Some C] →
  0 < H → 0 < W → 0 < C →
  let t1 := {| op := Transpose (op x) [0; 2; 1; 3]%nat;
               get_shape := [n; Some W; Some H; Some C] |} in
  let t2 := {| op := Reshape (op t1) [-1; W; H * C];
               get_shape := [n; Some W; Some (H * C)] |} in
  let t3 := {| op := Reshape (op t2) [-1; W * (H * C)];
               get_shape := [n; Some (W * (H * C))] |} in
  transpose_stage x g = (inr t1, g)
  ∧ merge_stage t1 g = (inr t2, g)
  ∧ flatten_stage t2 g = (inr t3, g)
  ∧ reshape_stage x g = (inr t3, g).
Proof.
  intros Hx HH HW HC t1 t2 t3.
  assert (transpose_stage x g = (inr t1, g)) as E1.
  { unfold transpose_stage, tf_transpose. by rewrite Hx. }
  assert (merge_stage t1 g = (inr t2, g)) as E2.
  { unfold merge_stage. cbn.
    apply (tf_reshape_batch t1 n [W; H; C] [W; H * C]); [done | | simpl; lia].
    repeat constructor; lia. }
  assert (flatten_stage t2 g = (inr t3, g)) as E3.
  { unfold flatten_stage. cbn.
    apply (tf_reshape_batch t2 n [W; H * C] [W * (H * C)]); [done | | simpl; lia].
    repeat constructor; lia. }
  repeat split; try done.
  unfold reshape_stage. by rewrite (bind_ok _ _ _ _ _ E1), (bind_ok _ _ _ _ _ E2).
Qed.

Lemma forallb_nonneg (l : list Z) :
  Forall (λ d, 0 ≤ d) l → forallb (Z.leb 0) l = true.
Proof.
  induction 1 as [|d l Hd _ IH]; simpl; [done|].
  rewrite IH. by destruct (Z.leb_spec 0 d); [|lia].
Qed.

Lemma weights_biases_distinct (pre : string) : pre +:+ "biases" ≠ pre +:+ "weights".
Proof. by intros H%(inj (String.app pre)). Qed.

Lemma adds_not_elem l g g' n :
  adds l g g' → n ∉ var_names g → n ∉ l → n ∉ var_names g'.
Proof. intros [_ ->] ??. rewrite elem_of_app. tauto. Qed.

(** The convolution layer on a graph where its two names are free: both
    variables are created, then the two spatial sizes decide the outcome. *)
Lemma slim_convolution_run x out kh kw sh sw wi bi wr br sc g n h w c :
  get_shape x = [n; h; w; Some c] →
  0 ≤ kh → 0 ≤ kw → 0 ≤ c → 0 ≤ out →
  (scope g +:+ sc +:+ "/") +:+ "weights" ∉ var_names g →
  (scope g +:+ sc +:+ "/") +:+ "biases" ∉ var_names g →
  ∃ g',
    adds [(scope g +:+ sc +:+ "/") +:+ "weights";
          (scope g +:+ sc +:+ "/") +:+ "biases"] g g'
    ∧ slim_convolution x out (kh, kw) (sh, sw) wi bi wr br sc g
      = (h' <-! windowed_output_size h kh sh ;;
         w' <-! windowed_output_size w kw sw ;;
         inr {| op := Conv2D (op x) ((scope g +:+ sc +:+ "/") +:+ "weights")
                             ((scope g +:+ sc +:+ "/") +:+ "biases") (sh, sw);
                get_shape := [n; h'; w'; Some out] |},
         g').
Proof.
  intros Hx Hkh Hkw Hc Hout Hw Hb.
  set (g0 := set_scope (scope g +:+ sc +:+ "/") g).
  destruct (get_variable_fresh "weights" [kh; kw; c; out] wi wr g0)
    as (g1 & E1 & A1); [done | |].
  { apply forallb_nonneg. by repeat constructor. }
  destruct (get_variable_fresh "biases" [out] bi br g1) as (g2 & E2 & A2).
  { destruct A1 as [-> ->]. rewrite elem_of_app, list_elem_of_singleton.
    intros [?|?]; [by apply Hb|]. by eapply weights_biases_distinct. }
  { apply forallb_nonneg. by repeat constructor. }
  assert (scope g1 = scope g +:+ sc +:+ "/") as Hs1 by (by destruct A1).
  rewrite Hs1 in E2, A2.
  exists (set_scope (scope g) g2). split.
  { apply adds_scoped with (s := scope g +:+ sc +:+ "/").
    exact (adds_trans [_] [_] _ _ _ A1 A2). }
  unfold slim_convolution. apply variable_scope_run. fold g0. rewrite Hx.
  rewrite (bind_ok _ _ _ _ _ E1), (bind_ok _ _ _ _ _ E2).
  unfold bind, lift, ret, fst, snd.
  destruct (windowed_output_size h kh sh) as [e|h']; [done|].
  destruct (windowed_output_size w kw sw) as [e|w']; done.
Qed.

Lemma slim_pool_run x kh kw sh sw g n h w c :
  get_shape x = [n; h; w; c] →
  slim_pool x (kh, kw) (sh, sw) g
  = (h' <-! windowed_output_size h kh sh ;;
     w' <-! windowed_output_size w kw sw ;;
     inr {| op := MaxPool (op x) (kh, kw) (sh, sw); get_shape := [n; h'; w'; c] |},
     g).
Proof.
  intros Hx. unfold slim_pool. rewrite Hx. unfold bind, lift, ret, fst, snd.
  destruct (windowed_output_size h kh sh) as [e|h']; [done|].
  destruct (windowed_output_size w kw sw) as [e|w']; done.
Qed.

Lemma slim_fully_connected_ok x out wi bi wr br sc g n d :
  get_shape x = [n; Some d] →
  0 ≤ d → 0 ≤ out →
  (scope g +:+ sc +:+ "/") +:+ "weights" ∉ var_names g →
  (scope g +:+ sc +:+ "/") +:+ "biases" ∉ var_names g →
  ∃ g',
    adds [(scope g +:+ sc +:+ "/") +:+ "weights";
          (scope g +:+ sc +:+ "/") +:+ "biases"] g g'
    ∧ slim_fully_connected x out wi bi wr br sc g
      = (inr {| op := FullyConnected (op x) ((scope g +:+ sc +:+ "/") +:+ "weights")
                                     ((scope g +:+ sc +:+ "/") +:+ "biases");
                get_shape := [n; Some out] |}, g').
Proof.
  intros Hx Hd Hout Hw Hb.
  set (g0 := set_scope (scope g +:+ sc +:+ "/") g).
  destruct (get_variable_fresh "weights" [d; out] wi wr g0)
    as (g1 & E1 & A1); [done | |].
  { apply forallb_nonneg. by repeat constructor. }
  destruct (get_variable_fresh "biases" [out] bi br g1) as (g2 & E2 & A2).
  { destruct A1 as [-> ->]. rewrite elem_of_app, list_elem_of_singleton.
    intros [?|?]; [by apply Hb|]. by eapply weights_biases_distinct. }
  { apply forallb_nonneg. by repeat constructor. }
  assert (scope g1 = scope g +:+ sc +:+ "/") as Hs1 by (by destruct A1).
  rewrite Hs1 in E2, A2.
  exists (set_scope (scope g) g2). split.
  { apply adds_scoped with (s := scope g +:+ sc +:+ "/").
    exact (adds_trans [_] [_] _ _ _ A1 A2). }
  unfold slim_fully_connected. apply variable_scope_run. fold g0. rewrite Hx.
  simpl. by rewrite (bind_ok _ _ _ _ _ E1), (bind_ok _ _ _ _ _ E2).
Qed.

Ltac names_distinct :=
  unfold weights_of, biases_of;
  repeat (apply not_elem_of_cons; split;
          [ let Heq := fresh in
            intros Heq; apply variable_name_eq in Heq;
            vm_compute in Heq; discriminate Heq |]);
  apply not_elem_of_nil.

(** ** The pipeline on an input whose sizes fit every window *)

Lemma build_features_ok p x tr s g n h w c h1 w1 h2 w2 w3 w4 :
  get_shape x = [n; Some h; Some w; Some c] → 0 ≤ c →
  windowed_output_size (Some h) 57 1 = inr (Some h1) →
  windowed_output_size (Some w) 6 1 = inr (Some w1) →
  windowed_output_size (Some h1) 4 1 = inr (Some h2) →
  windowed_output_size (Some w1) 3 3 = inr (Some w2) →
  windowed_output_size (Some w2) 3 1 = inr (Some w3) →
  windowed_output_size (Some w3) 3 3 = inr (Some w4) →
  0 < h2 → 0 < w4 →
  scope g = s +:+ "piczak" +:+ "/" →
  (∀ v, v ∈ [weights_of s "cnn_1"; biases_of s "cnn_1";
             weights_of s "cnn_2"; biases_of s "cnn_2"] → v ∉ var_names g) →
  ∃ g',
    adds [weights_of s "cnn_1"; biases_of s "cnn_1";
          weights_of s "cnn_2"; biases_of s "cnn_2"] g g'
    ∧ build_features p x tr g
      = (inr {| op := features_node s (op x) tr [-1; w4; h2 * 80] [-1; w4 * (h2 * 80)];
                get_shape := [n; Some (w4 * (h2 * 80))] |}, g').
Proof.
  intros Hx Hc Hh1 Hw1 Hh2 Hw2 Hw3 Hw4 Hh2pos Hw4pos Hs Hfresh.
  destruct (slim_convolution_run x 80 57 6 1 1 (W_init p) (b_init p) (W_reg p) (b_reg p)
              "cnn_1" g n (Some h) (Some w) c Hx) as (g1 & A1 & E1); try lia.
  { rewrite Hs. apply Hfresh. set_solver. }
  { rewrite Hs. apply Hfresh. set_solver. }
  rewrite Hh1, Hw1, Hs in E1. cbn [ebind] in E1. rewrite Hs in A1.
  assert (scope g1 = s +:+ "piczak" +:+ "/") as Hs1 by (destruct A1; congruence).
  match type of E1 with _ = (inr ?t, _) => set (c1 := t) in * end.
  set (r1 := {| op := Relu (op c1); get_shape := get_shape c1 |}).
  set (d1 := {| op := Dropout (op r1) (1 # 2)%Q tr; get_shape := get_shape r1 |}).
  pose proof (slim_pool_run d1 4 3 1 3 g1 _ _ _ _ eq_refl) as P1.
  rewrite Hh2, Hw2 in P1. cbn [ebind] in P1.
  match type of P1 with _ = (inr ?t, _) => set (p1 := t) in * end.
  destruct (slim_convolution_run p1 80 1 3 1 1 (W_init p) (b_init p) (W_reg p) (b_reg p)
              "cnn_2" g1 n (Some h2) (Some w2) 80 eq_refl) as (g2 & A2 & E2); try lia.
  { rewrite Hs1. eapply adds_not_elem; [exact A1 | apply Hfresh; set_solver |].
    names_distinct. }
  { rewrite Hs1. eapply adds_not_elem; [exact A1 | apply Hfresh; set_solver |].
    names_distinct. }
  assert (windowed_output_size (Some h2) 1 1 = inr (Some h2)) as Hh3.
  { unfold windowed_output_size. destruct (Z.ltb_spec h2 1); [lia|].
    do 2 f_equal. rewrite Z.div_1_r. lia. }
  rewrite Hh3, Hw3, Hs1 in E2. cbn [ebind] in E2. rewrite Hs1 in A2.
  match type of E2 with _ = (inr ?t, _) => set (c2 := t) in * end.
  set (r2 := {| op := Relu (op c2); get_shape := get_shape c2 |}).
  pose proof (slim_pool_run r2 1 3 1 3 g2 _ _ _ _ eq_refl) as P2.
  rewrite Hh3, Hw4 in P2. cbn [ebind] in P2.
  match type of P2 with _ = (inr ?t, _) => set (p2 := t) in * end.
  destruct (reshape_stage_steps p2 n h2 w4 80 g2 eq_refl) as (_ & _ & _ & R);
    [lia..|].
  exists g2. split; [exact (adds_trans _ _ _ _ _ A1 A2)|].
  assert (conv_block_1 p x tr g = (inr p1, g1)) as B1.
  { unfold conv_block_1. rewrite (bind_ok _ _ _ _ _ E1).
    rewrite (bind_ok _ _ _ _ _ (tf_nn_relu_eq c1 g1)).
    by rewrite (bind_ok _ _ _ _ _ (slim_dropout_eq r1 _ tr "cnn_1" g1)). }
  assert (conv_block_2 p p1 g1 = (inr p2, g2)) as B2.
  { unfold conv_block_2. rewrite (bind_ok _ _ _ _ _ E2).
    by rewrite (bind_ok _ _ _ _ _ (tf_nn_relu_eq c2 g2)). }
  unfold build_features.
  by rewrite (bind_ok _ _ _ _ _ B1), (bind_ok _ _ _ _ _ B2), R.
Qed.

Lemma build_dense_ok p x tr s g n d :
  get_shape x = [n; Some d] → 0 ≤ d → 0 ≤ num_classes p →
  scope g = s +:+ "piczak" +:+ "/" →
  (∀ v, v ∈ [weights_of s "dense_1"; biases_of s "dense_1";
             weights_of s "dense_2"; biases_of s "dense_2";
             weights_of s "output"; biases_of s "output"] → v ∉ var_names g) →
  ∃ g',
    adds [weights_of s "dense_1"; biases_of s "dense_1";
          weights_of s "dense_2"; biases_of s "dense_2";
          weights_of s "output"; biases_of s "output"] g g'
    ∧ build_dense p x tr g
      = (inr {| op := dense_node s (op x) tr;
                get_shape := [n; Some (num_classes p)] |}, g').
Proof.
  intros Hx Hd Hnc Hs Hfresh.
  destruct (slim_fully_connected_ok x 5000 (W_init p) (b_init p) (W_reg p) (b_reg p)
              "dense_1" g n d Hx) as (g1 & A1 & E1); try lia.
  { rewrite Hs. apply Hfresh. set_solver. }
  { rewrite Hs. apply Hfresh. set_solver. }
  rewrite Hs in E1, A1.
  assert (scope g1 = s +:+ "piczak" +:+ "/") as Hs1 by (destruct A1; congruence).
  match type of E1 with _ = (inr ?t, _) => set (f1 := t) in * end.
  set (r1 := {| op := Relu (op f1); get_shape := get_shape f1 |}).
  set (d1 := {| op := Dropout (op r1) (1 # 2)%Q tr; get_shape := get_shape r1 |}).
  assert (dense_block p x tr "dense_1" g = (inr d1, g1)) as B1.
  { unfold dense_block. rewrite (bind_ok _ _ _ _ _ E1).
    rewrite (bind_ok _ _ _ _ _ (tf_nn_relu_eq f1 g1)).
    apply slim_dropout_eq. }
  destruct (slim_fully_connected_ok d1 5000 (W_init p) (b_init p) (W_reg p) (b_reg p)
              "dense_2" g1 n 5000 eq_refl) as (g2 & A2 & E2); try lia.
  { rewrite Hs1. eapply adds_not_elem; [exact A1 | apply Hfresh; set_solver |].
    names_distinct. }
  { rewrite Hs1. eapply adds_not_elem; [exact A1 | apply Hfresh; set_solver |].
    names_distinct. }
  rewrite Hs1 in E2, A2.
  pose proof (adds_trans _ _ _ _ _ A1 A2) as A12.
  assert (scope g2 = s +:+ "piczak" +:+ "/") as Hs2 by (destruct A2; congruence).
  match type of E2 with _ = (inr ?t, _) => set (f2 := t) in * end.
  set (r2 := {| op := Relu (op f2); get_shape := get_shape f2 |}).
  set (d2 := {| op := Dropout (op r2) (1 # 2)%Q tr; get_shape := get_shape r2 |}).
  assert (dense_block p d1 tr "dense_2" g1 = (inr d2, g2)) as B2.
  { unfold dense_block. rewrite (bind_ok _ _ _ _ _ E2).
    rewrite (bind_ok _ _ _ _ _ (tf_nn_relu_eq f2 g2)).
    apply slim_dropout_eq. }
  destruct (slim_fully_connected_ok d2 (num_classes p) (W_init p) (b_init p)
              (W_reg p) (b_reg p) "output" g2 n 5000 eq_refl)
    as (g3 & A3 & E3); try lia.
  { rewrite Hs2. eapply adds_not_elem; [exact A12 | apply Hfresh; set_solver |].
    names_distinct. }
  { rewrite Hs2. eapply adds_not_elem; [exact A12 | apply Hfresh; set_solver |].
    names_distinct. }
  rewrite Hs2 in E3, A3.
  exists g3. split; [exact (adds_trans _ _ _ _ _ A12 A3)|].
  unfold build_dense, output_layer.
  by rewrite (bind_ok _ _ _ _ _ B1), (bind_ok _ _ _ _ _ B2), E3.
Qed.

Lemma build_predict_op_ok p x tr g n h w c h1 w1 h2 w2 w3 w4 :
  get_shape x = [n; Some h; Some w; Some c] → 0 ≤ c →
  windowed_output_size (Some h) 57 1 = inr (Some h1) →
  windowed_output_size (Some w) 6 1 = inr (Some w1) →
  windowed_output_size (Some h1) 4 1 = inr (Some h2) →
  windowed_output_size (Some w1) 3 3 = inr (Some w2) →
  windowed_output_size (Some w2) 3 1 = inr (Some w3) →
  windowed_output_size (Some w3) 3 3 = inr (Some w4) →
  0 < h2 → 0 < w4 →
  0 ≤ num_classes p →
  fresh_for_piczak g →
  ∃ f g1 t g',
    flatten_output p x tr g = (inr f, g1)
    ∧ get_shape f = [n; Some (w4 * (h2 * 80))]
    ∧ build_predict_op p x tr g = (inr t, g')
    ∧ get_shape t = [n; Some (num_classes p)]
    ∧ op t = dense_node (scope g) (op f) tr
    ∧ adds (piczak_variables (scope g)) g g'.
Proof.
  intros Hx Hc Hh1 Hw1 Hh2 Hw2 Hw3 Hw4 Hh2pos Hw4pos Hnc Hfresh.
  set (g0 := set_scope (scope g +:+ "piczak" +:+ "/") g).
  destruct (build_features_ok p x tr (scope g) g0 n h w c h1 w1 h2 w2 w3 w4)
    as (g1 & A1 & E1); try done.
  { intros v Hv. apply Hfresh. rewrite piczak_variables_unfold.
    set_unfold. tauto. }
  match type of E1 with _ = (inr ?t, _) => set (f := t) in * end.
  assert (0 ≤ w4 * (h2 * 80)) as Hd by nia.
  destruct (build_dense_ok p f tr (scope g) g1 n _ eq_refl Hd Hnc)
    as (g2 & A2 & E2).
  { by destruct A1 as [-> _]. }
  { intros v Hv. eapply adds_not_elem; [exact A1 | |].
    - apply Hfresh. rewrite piczak_variables_unfold. set_unfold. tauto.
    - revert v Hv. apply Forall_forall. repeat constructor; names_distinct. }
  exists f, (set_scope (scope g) g1),
    {| op := dense_node (scope g) (op f) tr; get_shape := [n; Some (num_classes p)] |},
    (set_scope (scope g) g2).
  split; [|split; [done|]].
  { unfold flatten_output. by apply variable_scope_run. }
  split; [|split; [done|split; [done|]]].
  { unfold build_predict_op. apply variable_scope_run. fold g0.
    by rewrite (bind_ok _ _ _ _ _ E1). }
  apply adds_scoped with (s := scope g +:+ "piczak" +:+ "/").
  rewrite piczak_variables_unfold. exact (adds_trans _ _ _ _ _ A1 A2).
Qed.

(** * Shape of the forward pipeline *)

Lemma empty_graph_fresh : fresh_for_piczak empty_graph.
Proof. intros n _. apply not_elem_of_nil. Qed.

(** C1, as stated, fails: on the input (1, 60, 41, 1) the flat tensor that
    enters the first dense layer has 240 features per example, not 800
    (60-57+1 = 4 and 41-6+1 = 36 after the first convolution, 1 and 12 after
    the first pooling, 1 and 10 after the second convolution, 1 and 3 after
    the second pooling, and 3 * 1 * 80 = 240). *)
Lemma flatten_not_800_at_41_frames :
  ∃ f g1,
    flatten_output (Piczak_default "piczak") (spectrogram 1 41) false empty_graph
    = (inr f, g1)
    ∧ get_shape f = [Some 1; Some 240]
    ∧ get_shape f ≠ [Some 1; Some 800].
Proof. eexists _, _. split; [vm_compute; reflexivity|]. split; [reflexivity | discriminate]. Qed.

(** C1 (amended): for every batch size N >= 1, on a graph where the
    pipeline's names are free, [build_predict_op] on an input of shape
    (N, 60, 41, 1) with num_classes = 50 produces an output of shape (N, 50),
    and the flat tensor that enters the first dense layer has shape
    (N, 240). *)
Theorem build_predict_op_reference_shapes
    (p : Piczak) (x : Tensor) (is_training : bool) (g : Graph) (N : Z) :
  num_classes p = 50 →
  1 ≤ N →
  get_shape x = [Some N; Some 60; Some 41; Some 1] →
  fresh_for_piczak g →
  ∃ f g1 t g',
    flatten_output p x is_training g = (inr f, g1)
    ∧ get_shape f = [Some N; Some 240]
    ∧ build_predict_op p x is_training g = (inr t, g')
    ∧ get_shape t = [Some N; Some 50]
    ∧ op t = dense_node (scope g) (op f) is_training.
Proof.
  intros Hnc HN Hx Hfresh.
  destruct (build_predict_op_ok p x is_training g (Some N) 60 41 1 4 36 1 12 10 3)
    as (f & g1 & t & g' & Hf & Hsf & Ht & Hst & Hop & _);
    try done; try lia.
  rewrite Hnc in Hst. by exists f, g1, t, g'.
Qed.

Lemma build_predict_op_reference_shapes_witness :
  ∃ f g1 t g',
    flatten_output (Piczak_default "piczak") (spectrogram 3 41) false empty_graph
    = (inr f, g1)
    ∧ get_shape f = [Some 3; Some 240]
    ∧ build_predict_op (Piczak_default "piczak") (spectrogram 3 41) false empty_graph
      = (inr t, g')
    ∧ get_shape t = [Some 3; Some 50]
    ∧ op t = dense_node (scope empty_graph) (op f) false.
Proof.
  apply (build_predict_op_reference_shapes
           (Piczak_default "piczak") (spectrogram 3 41) false empty_graph 3);
    [reflexivity | lia | reflexivity | exact empty_graph_fresh].
Defined.

(** The 800 features of the code's comments arise with 101 time frames:
    (N, 60, 101, 1) gives (N, 1, 10, 80) after the second pooling. *)
Lemma flatten_800_at_101_frames (p : Piczak) (x : Tensor) (is_training : bool)
    (g : Graph) (n : Dim) :
  0 ≤ num_classes p →
  get_shape x = [n; Some 60; Some 101; Some 1] →
  fresh_for_piczak g →
  ∃ f g1 t g',
    flatten_output p x is_training g = (inr f, g1)
    ∧ get_shape f = [n; Some 800]
    ∧ build_predict_op p x is_training g = (inr t, g')
    ∧ get_shape t = [n; Some (num_classes p)].
Proof.
  intros Hnc Hx Hfresh.
  destruct (build_predict_op_ok p x is_training g n 60 101 1 4 96 1 32 30 10)
    as (f & g1 & t & g' & Hf & Hsf & Ht & Hst & Hop & _);
    try done; try lia.
  by exists f, g1, t, g'.
Qed.

(** C4: the reshaping stage on a tensor of shape (N, H, W, C), with H, W
    and C positive as they are after the pooling layer: the transposition
    gives (N, W, H, C), the first reshape (N, W, H*C), the second
    (N, W*H*C); the batch size N may be unknown.  The stage is the
    transposition with permutation [0, 2, 1, 3] followed by the two reshapes
    and nothing else: the graph is left as it was, so no variable is
    created, and the result reads no variable that the input does not
    read. *)
Theorem reshape_stage_shapes (x : Tensor) (n : Dim) (H W C : Z) (g : Graph) :
  get_shape x = [n; Some H; Some W; Some C] →
  0 < H → 0 < W → 0 < C →
  ∃ t1 t2 t3,
    transpose_stage x g = (inr t1, g)
    ∧ get_shape t1 = [n; Some W; Some H; Some C]
    ∧ merge_stage t1 g = (inr t2, g)
    ∧ get_shape t2 = [n; Some W; Some (H * C)]
    ∧ flatten_stage t2 g = (inr t3, g)
    ∧ get_shape t3 = [n; Some (W * H * C)]
    ∧ reshape_stage x g = (inr t3, g)
    ∧ op t3 = Reshape (Reshape (Transpose (op x) [0; 2; 1; 3]%nat) [-1; W; H * C])
                      [-1; W * (H * C)]
    ∧ reads (op t3) = reads (op x).
Proof.
  intros Hx HH HW HC.
  destruct (reshape_stage_steps x n H W C g Hx HH HW HC) as (E1 & E2 & E3 & E).
  eexists _, _, _.
  split; [exact E1|]. split; [reflexivity|].
  split; [exact E2|]. split; [reflexivity|].
  split; [exact E3|]. split; [simpl; by rewrite Z.mul_assoc|].
  split; [exact E|]. split; reflexivity.
Qed.

Lemma reshape_stage_shapes_witness :
  let x := {| op := Placeholder "pooled";
              get_shape := [Some 2; Some 1; Some 10; Some 80] |} in
  ∃ t1 t2 t3,
    transpose_stage x empty_graph = (inr t1, empty_graph)
    ∧ get_shape t1 = [Some 2; Some 10; Some 1; Some 80]
    ∧ merge_stage t1 empty_graph = (inr t2, empty_graph)
    ∧ get_shape t2 = [Some 2; Some 10; Some (1 * 80)]
    ∧ flatten_stage t2 empty_graph = (inr t3, empty_graph)
    ∧ get_shape t3 = [Some 2; Some (10 * 1 * 80)]
    ∧ reshape_stage x empty_graph = (inr t3, empty_graph)
    ∧ op t3 = Reshape (Reshape (Transpose (op x) [0; 2; 1; 3]%nat) [-1; 10; 1 * 80])
                      [-1; 10 * (1 * 80)]
    ∧ reads (op t3) = reads (op x).
Proof.
  intros x.
  apply (reshape_stage_shapes x (Some 2) 1 10 80 empty_graph);
    [reflexivity | lia | lia | lia].
Defined.

(** C9: when the frequency size is below 57 or the time size below 6, the
    construction stops in the first convolution with the shape error of the
    static shape inference; no tensor is returned. *)
Theorem build_predict_op_small_input
    (p : Piczak) (x : Tensor) (is_training : bool) (g : Graph)
    (n : Dim) (F T c : Z) :
  get_shape x = [n; Some F; Some T; Some c] →
  0 ≤ c →
  F < 57 ∨ T < 6 →
  fresh_for_piczak g →
  (build_predict_op p x is_training g).1 = inl ShapeMismatch.
Proof.
  intros Hx Hc Hsmall Hfresh.
  set (g0 := set_scope (scope g +:+ "piczak" +:+ "/") g).
  destruct (slim_convolution_run x 80 57 6 1 1 (W_init p) (b_init p) (W_reg p) (b_reg p)
              "cnn_1" g0 n (Some F) (Some T) c Hx) as (g1 & A1 & E1); try lia.
  { apply Hfresh. rewrite piczak_variables_unfold. set_unfold. tauto. }
  { apply Hfresh. rewrite piczak_variables_unfold. set_unfold. tauto. }
  assert (∃ g2, slim_convolution x 80 (57, 6) (1, 1) (W_init p) (b_init p)
                  (W_reg p) (b_reg p) "cnn_1" g0 = (inl ShapeMismatch, g2))
    as [g2 Hfail].
  { exists g1. rewrite E1. f_equal. unfold windowed_output_size.
    destruct (Z.ltb_spec F 57); [done|]. destruct (Z.ltb_spec T 6); [done | lia]. }
  unfold build_predict_op, variable_scope. fold g0. simpl.
  unfold build_features, conv_block_1.
  by rewrite (bind_fail _ _ _ _ _ (bind_fail _ _ _ _ _ (bind_fail _ _ _ _ _ Hfail))).
Qed.

Lemma build_predict_op_small_input_witness :
  (build_predict_op (Piczak_default "piczak")
     {| op := Placeholder "spectrogram";
        get_shape := [Some 8; Some 40; Some 5; Some 1] |}
     false empty_graph).1 = inl ShapeMismatch.
Proof.
  apply (build_predict_op_small_input _ _ false empty_graph (Some 8) 40 5 1);
    [reflexivity | lia | left; lia | exact empty_graph_fresh].
Defined.

(** * Running the pipeline in inference mode *)

Section Inference.
Context {V RNG : Type}.
Variable K : Kernels V RNG.

Lemma run_pipeline_inference sess feed s x tg1 tg2 rng :
  run K sess feed (dense_node s (features_node s x false tg1 tg2) false) rng
  = (r <-! run K sess feed x rng ;;
     v <-! inference_value K sess s tg1 tg2 r.1 ;;
     inr (v, r.2)).
Proof.
  unfold inference_value, dense_node, features_node. cbn [run].
  destruct (run K sess feed x rng) as [e|[v r]]; [done|]. cbn [ebind fst snd].
  repeat (match goal with
          | |- context [read_variable sess ?n] =>
              destruct (read_variable sess n); cbn [ebind fst snd]; [done|]
          end).
  done.
Qed.

Lemma run_value_pipeline_inference sess feed s x tg1 tg2 rng :
  run_value K sess feed (dense_node s (features_node s x false tg1 tg2) false) rng
  = (v <-! run_value K sess feed x rng ;; inference_value K sess s tg1 tg2 v).
Proof.
  unfold run_value. rewrite run_pipeline_inference.
  destruct (run K sess feed x rng) as [e|[v r]]; [done|]. cbn [ebind fst snd].
  by destruct (inference_value K sess s tg1 tg2 v).
Qed.

Lemma inference_value_agree sess1 sess2 s tg1 tg2 v :
  (∀ n, n ∈ piczak_variables s → sess1 !! n = sess2 !! n) →
  inference_value K sess1 s tg1 tg2 v = inference_value K sess2 s tg1 tg2 v.
Proof.
  intros Hagree. unfold inference_value, read_variable.
  rewrite !Hagree; [done | rewrite piczak_variables_unfold; set_unfold; tauto ..].
Qed.
End Inference.

Example inference_run :
  run_value scalar_kernels (constant_session (piczak_variables "") 2)
    {[ "spectrogram" := 1 ]} (op reference_inference) 0%nat = inr 94.
Proof. vm_compute. reflexivity. Qed.

(** In training mode the same graph gives different values on different
    generator states: the evaluator does depend on the generator. *)
Example training_run_depends_on_generator :
  run_value scalar_kernels (constant_session (piczak_variables "") 2)
    {[ "spectrogram" := 1 ]} (op reference_training) 0%nat
  ≠ run_value scalar_kernels (constant_session (piczak_variables "") 2)
      {[ "spectrogram" := 1 ]} (op reference_training) 1%nat.
Proof. vm_compute. discriminate. Qed.

(** C5: with training mode off, the pipeline holds three dropout layers
    (after the rectifier of dense_2, of dense_1 and of cnn_1), all with the
    training flag off, and such a layer, as [slim.dropout] builds it, returns
    a tensor of the same shape whose value is the value of its input, for
    any input, session, feed and generator state. *)
Theorem dropout_is_identity_in_inference {V RNG : Type} (K : Kernels V RNG)
    (p : Piczak) (x : Tensor) (g : Graph) (t : Tensor) (g' : Graph) :
  build_predict_op p x false g = (inr t, g') →
  dropout_layers (op t)
  = [((1 # 2)%Q, false); ((1 # 2)%Q, false); ((1 # 2)%Q, false)]
    ++ dropout_layers (op x)
  ∧ ∀ (inputs : Tensor) (keep_prob : Q) (scope_name : string) (g1 : Graph)
      (sess feed : gmap string V) (rng : RNG),
      ∃ out,
        slim_dropout inputs keep_prob false scope_name g1 = (inr out, g1)
        ∧ get_shape out = get_shape inputs
        ∧ run K sess feed (op out) rng = run K sess feed (op inputs) rng.
Proof.
  intros [(tg1 & tg2 & Hop) _]%build_predict_op_inr. split.
  - by rewrite Hop.
  - intros inputs keep_prob scope_name g1 sess feed rng.
    eexists. split; [apply slim_dropout_eq|]. split; [done|].
    cbn [op run]. by destruct (run K sess feed (op inputs) rng).
Qed.

Lemma dropout_is_identity_in_inference_witness :
  dropout_layers (op reference_inference)
  = [((1 # 2)%Q, false); ((1 # 2)%Q, false); ((1 # 2)%Q, false)]
    ++ dropout_layers (op (spectrogram 1 41))
  ∧ ∀ (inputs : Tensor) (keep_prob : Q) (scope_name : string) (g1 : Graph)
      (sess feed : gmap string Z) (rng : nat),
      ∃ out,
        slim_dropout inputs keep_prob false scope_name g1 = (inr out, g1)
        ∧ get_shape out = get_shape inputs
        ∧ run scalar_kernels sess feed (op out) rng
          = run scalar_kernels sess feed (op inputs) rng.
Proof.
  apply (dropout_is_identity_in_inference scalar_kernels reference_model
           (spectrogram 1 41) empty_graph reference_inference reference_graph).
  vm_compute. reflexivity.
Defined.

(** C6: with training mode off, two runs of the pipeline in one session
    (one parameter set) on inputs of equal value give equal results,
    whatever the two states of the random generator are. *)
Theorem inference_is_deterministic {V RNG : Type} (K : Kernels V RNG)
    (p : Piczak) (x : Tensor) (g : Graph) (t : Tensor) (g' : Graph)
    (sess feed1 feed2 : gmap string V) (rng1 rng2 : RNG) :
  build_predict_op p x false g = (inr t, g') →
  run_value K sess feed1 (op x) rng1 = run_value K sess feed2 (op x) rng2 →
  run_value K sess feed1 (op t) rng1 = run_value K sess feed2 (op t) rng2.
Proof.
  intros [(tg1 & tg2 & Hop) _]%build_predict_op_inr Hx.
  by rewrite Hop, !run_value_pipeline_inference, Hx.
Qed.

Lemma inference_is_deterministic_witness :
  run_value scalar_kernels (constant_session (piczak_variables "") 2)
    {[ "spectrogram" := 1 ]} (op reference_inference) 0%nat
  = run_value scalar_kernels (constant_session (piczak_variables "") 2)
      {[ "spectrogram" := 1 ]} (op reference_inference) 7%nat.
Proof.
  apply (inference_is_deterministic scalar_kernels reference_model
           (spectrogram 1 41) empty_graph reference_inference reference_graph).
  - vm_compute. reflexivity.
  - vm_compute. reflexivity.
Defined.

(** * Saving and restoring *)

Section CheckpointProperties.
Context {V : Type}.
Implicit Types (sess ckpt : gmap string V) (fs : gmap string (gmap string V)).

Lemma read_all_Some names (m : gmap string V) :
  (∀ n, n ∈ names → is_Some (m !! n)) →
  ∃ kvs, read_all names m = Some kvs
         ∧ ∀ n, (list_to_map kvs : gmap string V) !! n
                = if decide (n ∈ names) then m !! n else None.
Proof.
  induction names as [|a names IH]; intros Hall.
  - exists []. split; [done|]. intros n. rewrite decide_False by apply not_elem_of_nil.
    apply lookup_empty.
  - destruct IH as (kvs & Hkvs & Hlook).
    { intros n Hn. apply Hall. by right. }
    destruct (Hall a) as [v Hv]; [by left|].
    exists ((a, v) :: kvs). split; [simpl; by rewrite Hv, Hkvs|].
    intros n. simpl. destruct (decide (a = n)) as [<-|Hne].
    + rewrite lookup_insert_eq, decide_True by (by left). done.
    + rewrite lookup_insert_ne, Hlook by done.
      destruct (decide (n ∈ names)) as [Hin|Hnin].
      * rewrite decide_True by (by right). done.
      * rewrite decide_False; [done|]. rewrite not_elem_of_cons. split; [congruence|done].
Qed.

Lemma read_all_None names (m : gmap string V) n :
  n ∈ names → m !! n = None → read_all names m = None.
Proof.
  induction names as [|a names IH]; [by intros ?%not_elem_of_nil|].
  intros [->|Hin]%elem_of_cons Hn; simpl; [by rewrite Hn|].
  destruct (m !! a); [|done]. by rewrite IH.
Qed.

(** [save] writes, under the path, exactly the variables of the graph
    whose name starts with "model", with their session values; it needs at
    least one such variable and all of them initialised. *)
Lemma save_collected (p : Piczak) path sess g fs :
  get_collection_GLOBAL_VARIABLES "model" g ≠ [] →
  (∀ n, n ∈ get_collection_GLOBAL_VARIABLES "model" g → is_Some (sess !! n)) →
  ∃ ckpt,
    save p path sess g fs = inr (<[path := ckpt]> fs)
    ∧ ∀ n, ckpt !! n
           = if decide (n ∈ get_collection_GLOBAL_VARIABLES "model" g)
             then sess !! n else None.
Proof.
  intros Hne Hinit. unfold save, Saver_save, Saver.
  destruct (get_collection_GLOBAL_VARIABLES "model" g) as [|a names] eqn:E; [done|].
  destruct (read_all_Some (a :: names) sess Hinit) as (kvs & -> & Hlook).
  by exists (list_to_map kvs).
Qed.

Lemma save_nothing_collected (p : Piczak) path sess g fs :
  get_collection_GLOBAL_VARIABLES "model" g = [] →
  save p path sess g fs = inl ValueError.
Proof. unfold save. by intros ->. Qed.

(** [load_piczak] on a checkpoint that holds every collected variable
    overwrites exactly those in the session. *)
Lemma load_collected (p : Piczak) path sess g fs ckpt :
  get_collection_GLOBAL_VARIABLES "model" g ≠ [] →
  fs !! path = Some ckpt →
  (∀ n, n ∈ get_collection_GLOBAL_VARIABLES "model" g → is_Some (ckpt !! n)) →
  ∃ sess',
    load_piczak p path sess g fs = inr sess'
    ∧ ∀ n, sess' !! n
           = if decide (n ∈ get_collection_GLOBAL_VARIABLES "model" g)
             then ckpt !! n else sess !! n.
Proof.
  intros Hne Hpath Hall. unfold load_piczak, Saver_restore, Saver.
  destruct (get_collection_GLOBAL_VARIABLES "model" g) as [|a names] eqn:E; [done|].
  rewrite Hpath.
  destruct (read_all_Some (a :: names) ckpt Hall) as (kvs & -> & Hlook).
  eexists. split; [done|]. intros n.
  destruct (decide (n ∈ a :: names)) as [Hin|Hnin].
  - destruct (Hall n Hin) as [v Hv].
    rewrite Hv. apply lookup_union_Some_l. by rewrite Hlook, decide_True.
  - rewrite lookup_union_r; [done|]. by rewrite Hlook, decide_False.
Qed.
End CheckpointProperties.

(** The variables of a pipeline built under a scope that starts with
    "model" are all collected. *)
Lemma piczak_variables_prefixed (s n : string) :
  String.prefix "model" s = true →
  n ∈ piczak_variables s → String.prefix "model" n = true.
Proof.
  intros Hs. rewrite piczak_variables_eq.
  intros (suffix & -> & _)%list_elem_of_fmap. by apply prefix_app.
Qed.

Lemma piczak_variables_collected p x tr g t g' n :
  String.prefix "model" (scope g) = true →
  build_predict_op p x tr g = (inr t, g') →
  n ∈ piczak_variables (scope g) →
  n ∈ get_collection_GLOBAL_VARIABLES "model" g'.
Proof.
  intros Hs [_ [_ Hv]]%build_predict_op_inr Hn.
  unfold get_collection_GLOBAL_VARIABLES. apply list_elem_of_filter. split.
  - apply Is_true_true. by eapply piczak_variables_prefixed.
  - rewrite Hv, elem_of_app. by right.
Qed.

Lemma filter_prefix_all (l : list string) :
  Forall (λ n, String.prefix "model" n = true) l →
  filter (λ n, Is_true (String.prefix "model" n)) l = l.
Proof.
  induction 1 as [|n l Hn _ IH]; [done|].
  rewrite filter_cons_True by (by apply Is_true_true). by rewrite IH.
Qed.

Lemma filter_prefix_none (l : list string) :
  Forall (λ n, String.prefix "model" n = false) l →
  filter (λ n, Is_true (String.prefix "model" n)) l = [].
Proof.
  induction 1 as [|n l Hn _ IH]; [done|].
  rewrite filter_cons_False; [done|]. rewrite Hn. intros [].
Qed.

(** Built under a scope that starts with "model", on a graph with no other
    variable of such a name, the collection is the pipeline's ten variables. *)
Lemma collection_is_pipeline p x tr g0 t g :
  String.prefix "model" (scope g0) = true →
  Forall (λ n, String.prefix "model" n = false) (var_names g0) →
  build_predict_op p x tr g0 = (inr t, g) →
  get_collection_GLOBAL_VARIABLES "model" g = piczak_variables (scope g0).
Proof.
  intros Hs Hother [_ [_ Hv]]%build_predict_op_inr.
  unfold get_collection_GLOBAL_VARIABLES. rewrite Hv, filter_app.
  rewrite filter_prefix_none by done. simpl.
  apply filter_prefix_all, Forall_forall. intros n Hn.
  by eapply piczak_variables_prefixed.
Qed.

(** C2, as stated, fails: with the pipeline built at the top level its ten
    variables are named piczak/..., while [save] collects the names that
    start with "model".  Here the graph also holds the caller's variable
    model/global_step; every variable is initialised to 0; the checkpoint
    holds the caller's variable and none of the pipeline's. *)
Lemma save_misses_top_level_pipeline :
  var_names top_level_graph_with_step = "model/global_step" :: piczak_variables ""
  ∧ save reference_model "ckpt"
      (constant_session (var_names top_level_graph_with_step) 0)
      top_level_graph_with_step (∅ : gmap string (gmap string Z))
    = inr {[ "ckpt" := {[ "model/global_step" := 0 ]} ]}.
Proof. split; vm_compute; reflexivity. Qed.

(** C2 (amended): when the pipeline was built under an enclosing variable
    scope whose name starts with "model", on a graph with no other variable
    whose name starts with "model", and its ten variables are initialised in
    the session, [save] succeeds and the checkpoint written under the path
    holds exactly those ten variables with their session values. *)
Theorem save_serializes_pipeline {V : Type}
    (p : Piczak) (x : Tensor) (is_training : bool) (g0 : Graph)
    (t : Tensor) (g : Graph) (path : string)
    (sess : gmap string V) (fs : gmap string (gmap string V)) :
  String.prefix "model" (scope g0) = true →
  Forall (λ n, String.prefix "model" n = false) (var_names g0) →
  build_predict_op p x is_training g0 = (inr t, g) →
  Forall (λ n, is_Some (sess !! n)) (piczak_variables (scope g0)) →
  ∃ ckpt : gmap string V,
    save p path sess g fs = inr (<[path := ckpt]> fs)
    ∧ (∀ n, is_Some (ckpt !! n) ↔ n ∈ piczak_variables (scope g0))
    ∧ (∀ n, n ∈ piczak_variables (scope g0) → ckpt !! n = sess !! n).
Proof.
  intros Hs Hother Hbuild Hinit.
  pose proof (collection_is_pipeline _ _ _ _ _ _ Hs Hother Hbuild) as Hcoll.
  destruct (save_collected p path sess g fs) as (ckpt & Hsave & Hlook).
  { by rewrite Hcoll. }
  { rewrite Hcoll. by apply Forall_forall. }
  rewrite Hcoll in Hlook.
  exists ckpt. split; [done|]. split.
  - intros n. rewrite Hlook. destruct (decide _) as [Hin|Hnin].
    + split; [done|]. intros _. by apply (proj1 (Forall_forall _ _) Hinit).
    + split; [by intros [? ?] | done].
  - intros n Hin. by rewrite Hlook, decide_True.
Qed.

Lemma save_serializes_pipeline_witness :
  ∃ ckpt : gmap string Z,
    save reference_model "ckpt" (constant_session (piczak_variables "model/") 2)
      model_scope_graph ∅
    = inr (<["ckpt" := ckpt]> ∅)
    ∧ (∀ n, is_Some (ckpt !! n) ↔ n ∈ piczak_variables (scope model_scope))
    ∧ (∀ n, n ∈ piczak_variables (scope model_scope)
            → ckpt !! n = constant_session (piczak_variables "model/") 2 !! n).
Proof.
  apply (save_serializes_pipeline reference_model (spectrogram 1 41) false
           model_scope model_scope_inference model_scope_graph).
  - reflexivity.
  - vm_compute. constructor.
  - vm_compute. reflexivity.
  - vm_compute. repeat constructor; eexists; reflexivity.
Defined.

(** C3, as stated, fails: with the pipeline built at the top level, as the
    class builds it, and all ten variables initialised, [save] collects no
    variable and raises; nothing is written that [load_piczak] could
    restore. *)
Lemma save_raises_at_top_level :
  build_predict_op reference_model (spectrogram 1 41) false empty_graph
  = (inr reference_inference, reference_graph)
  ∧ save reference_model "ckpt" (constant_session (piczak_variables "") 2)
      reference_graph (∅ : gmap string (gmap string Z))
    = inl ValueError
  ∧ load_piczak reference_model "ckpt" (constant_session (piczak_variables "") 5)
      reference_graph (∅ : gmap string (gmap string Z))
    = inl ValueError.
Proof. repeat split; vm_compute; reflexivity. Qed.

(** C3 (amended): when the pipeline was built, with training mode off,
    under an enclosing variable scope whose name starts with "model", and
    every collected variable is initialised in the session, [save] to a path
    succeeds, [load_piczak] from that path into any other session of the
    graph succeeds, and the pipeline run in the restored session gives, on an
    input of equal value, the result it gives in the saved session. *)
Theorem save_load_round_trip {V RNG : Type}
    (p : Piczak) (x : Tensor) (g0 : Graph) (t : Tensor) (g : Graph)
    (path : string) (sess1 sess2 : gmap string V)
    (fs : gmap string (gmap string V)) :
  String.prefix "model" (scope g0) = true →
  build_predict_op p x false g0 = (inr t, g) →
  Forall (λ n, is_Some (sess1 !! n)) (get_collection_GLOBAL_VARIABLES "model" g) →
  ∃ fs' sess2',
    save p path sess1 g fs = inr fs'
    ∧ load_piczak p path sess2 g fs' = inr sess2'
    ∧ ∀ (K : Kernels V RNG) (feed1 feed2 : gmap string V) (rng1 rng2 : RNG),
        run_value K sess1 feed1 (op x) rng1 = run_value K sess2' feed2 (op x) rng2 →
        run_value K sess1 feed1 (op t) rng1 = run_value K sess2' feed2 (op t) rng2.
Proof.
  intros Hs Hbuild Hinit.
  assert (get_collection_GLOBAL_VARIABLES "model" g ≠ []) as Hne.
  { intros E.
    assert (weights_of (scope g0) "cnn_1" ∈ get_collection_GLOBAL_VARIABLES "model" g)
      as Hin; [|rewrite E in Hin; by apply not_elem_of_nil in Hin].
    eapply piczak_variables_collected; [done..|].
    rewrite piczak_variables_unfold. by left. }
  destruct (save_collected p path sess1 g fs Hne) as (ckpt & Hsave & Hck).
  { by apply Forall_forall. }
  destruct (load_collected p path sess2 g (<[path := ckpt]> fs) ckpt Hne)
    as (sess2' & Hload & Hs2).
  { apply lookup_insert_eq. }
  { intros n Hn. rewrite Hck, decide_True by done.
    by apply (proj1 (Forall_forall _ _) Hinit). }
  exists (<[path := ckpt]> fs), sess2'. split; [done|]. split; [done|].
  intros K feed1 feed2 rng1 rng2 Hx.
  destruct (build_predict_op_inr _ _ _ _ _ _ Hbuild) as [(tg1 & tg2 & Hop) _].
  rewrite Hop, !run_value_pipeline_inference, Hx.
  destruct (run_value K sess2' feed2 (op x) rng2) as [e|v]; [done|]. cbn [ebind].
  apply inference_value_agree. intros n Hn.
  assert (n ∈ get_collection_GLOBAL_VARIABLES "model" g) as Hin
    by (by eapply piczak_variables_collected).
  by rewrite Hs2, decide_True, Hck, decide_True.
Qed.

Lemma save_load_round_trip_witness :
  ∃ fs' sess2',
    save reference_model "ckpt" (constant_session (piczak_variables "model/") 2)
      model_scope_graph (∅ : gmap string (gmap string Z)) = inr fs'
    ∧ load_piczak reference_model "ckpt"
        (constant_session (piczak_variables "model/") 5) model_scope_graph fs'
      = inr sess2'
    ∧ ∀ (K : Kernels Z nat) (feed1 feed2 : gmap string Z) (rng1 rng2 : nat),
        run_value K (constant_session (piczak_variables "model/") 2) feed1
          (op (spectrogram 1 41)) rng1
        = run_value K sess2' feed2 (op (spectrogram 1 41)) rng2 →
        run_value K (constant_session (piczak_variables "model/") 2) feed1
          (op model_scope_inference) rng1
        = run_value K sess2' feed2 (op model_scope_inference) rng2.
Proof.
  apply (save_load_round_trip reference_model (spectrogram 1 41) model_scope
           model_scope_inference model_scope_graph).
  - reflexivity.
  - vm_compute. reflexivity.
  - vm_compute. repeat constructor; eexists; reflexivity.
Defined.

(** * The loss *)

Section LossOverReals.
Import RealLoss.
Local Open Scope R_scope.

Lemma Rsum_cons (x : R) (l : list R) : Rsum (x :: l) = x + Rsum l.
Proof. done. Qed.

Lemma Rsum_exp_nonneg (row : list R) : 0 <= Rsum (exp <$> row).
Proof.
  induction row as [|x row IH]; [unfold Rsum; simpl; lra|].
  rewrite fmap_cons, Rsum_cons. pose proof (exp_pos x). lra.
Qed.

Lemma Rsum_exp_pos (row : list R) : row ≠ [] → 0 < Rsum (exp <$> row).
Proof.
  destruct row as [|x row]; [done|]. intros _.
  rewrite fmap_cons, Rsum_cons.
  pose proof (exp_pos x). pose proof (Rsum_exp_nonneg row). lra.
Qed.

Lemma Rsum_exp_shift (m : R) (row : list R) :
  Rsum (exp <$> ((λ x, x - m) <$> row)) = exp (- m) * Rsum (exp <$> row).
Proof.
  induction row as [|x row IH]; [unfold Rsum; simpl; lra|].
  rewrite !fmap_cons, !Rsum_cons, IH.
  replace (x - m) with (x + - m) by lra. rewrite exp_plus. lra.
Qed.

Lemma nth_shift (m : R) (row : list R) (i : nat) :
  (i < length row)%nat →
  nth i ((λ x, x - m) <$> row) 0 = nth i row 0 - m.
Proof.
  revert i. induction row as [|x row IH]; intros [|i] Hi; simpl in *; try lia.
  - done.
  - apply IH. lia.
Qed.

(** The sums of the textbook definitions are the sums of the kernel. *)
Lemma fold_right_map_exp (row : list R) :
  fold_right Rplus 0 (map exp row) = Rsum (exp <$> row).
Proof.
  induction row as [|x row IH]; [done|].
  rewrite fmap_cons, Rsum_cons, <- IH. done.
Qed.

Lemma softmax_eq (row : list R) (i : nat) :
  softmax row i = exp (nth i row 0) / Rsum (exp <$> row).
Proof. unfold softmax. by rewrite fold_right_map_exp. Qed.

Lemma valid_label_true (label : Z) (row : list R) :
  (0 ≤ label < Z.of_nat (length row))%Z → valid_label label row = true.
Proof.
  intros [Hlo Hhi]. unfold valid_label.
  destruct (Z.leb_spec 0 label); [|lia].
  destruct (Z.ltb_spec label (Z.of_nat (length row))); [done | lia].
Qed.


(** One row of the kernel is the cross-entropy of the softmax of the row
    against the label. *)
Lemma xent_value_cross_entropy (label : Z) (row : list R) :
  (0 ≤ label < Z.of_nat (length row))%Z →
  xent_value label row = cross_entropy label row.
Proof.
  intros [Hlo Hhi]. unfold xent_value, cross_entropy. rewrite softmax_eq.
  assert (row ≠ []) as Hne by (destruct row; [simpl in *; lia | done]).
  pose proof (Rsum_exp_pos row Hne) as Hpos. cbv zeta.
  rewrite Rsum_exp_shift, nth_shift by lia.
  rewrite ln_mult by (try apply exp_pos; done).
  unfold Rdiv. rewrite ln_mult by (try apply exp_pos; by apply Rinv_0_lt_compat).
  rewrite ln_Rinv, !ln_exp by done. lra.
Qed.

Lemma xent_row_cross_entropy (device : Device) (label : Z) (row : list R) :
  (0 ≤ label < Z.of_nat (length row))%Z →
  xent_row device label row = inr (Real (cross_entropy label row)).
Proof.
  intros Hl. unfold xent_row.
  by rewrite valid_label_true, xent_value_cross_entropy.
Qed.


Lemma reals_Real (l : list R) : reals (Real <$> l) = Some l.
Proof.
  induction l as [|r l IH]; [done|]. rewrite fmap_cons. cbn [reals].
  by rewrite IH.
Qed.

Lemma mean_number_Real (l : list R) :
  l ≠ [] → mean_number (Real <$> l) = Real (mean l).
Proof. intros Hne. unfold mean_number. rewrite reals_Real. by destruct l. Qed.






End LossOverReals.

(** ** ln 2 between two neighbouring float32 numbers *)

Section Float32.
Import RealLoss.
Local Open Scope R_scope.










End Float32.

(** ** The loss op *)

(** The loss op on logits of rank 2 and labels of rank 1: the two batch
    sizes are merged, and the result is a scalar. *)
Lemma get_loss_op_rank2 (p : Piczak) (prediction label_tensor : Tensor) (g : Graph)
    (n c m : Dim) :
  get_shape prediction = [n; c] →
  get_shape label_tensor = [m] →
  get_loss_op p prediction label_tensor g
  = (match merge_dim n m with
     | inr _ =>
         inr {| op := ReduceMean
                        (SparseSoftmaxCrossEntropyWithLogits (op label_tensor)
                           (op prediction));
                get_shape := [] |}
     | inl e => inl e
     end, g).
Proof.
  intros Hp Hl. unfold get_loss_op, tf_nn_sparse_softmax_cross_entropy_with_logits.
  rewrite Hp, Hl. cbn [length removelast]. unfold bind.
  destruct n as [N|], m as [M|];
    cbn [fully_defined forallb andb merge_dim];
    try destruct (Z.eqb_spec N M);
    repeat case_bool_decide; simplify_eq; cbn [andb]; try done; try lia.
Qed.

(** The run of the loss node once its two inputs have run. *)
Lemma run_loss_node {RNG : Type} (K : Kernels RealLoss.Value RNG)
    (device : RealLoss.Device) (sess feed : gmap string RealLoss.Value)
    (labels logits : Node) (rng rng1 rng2 : RNG) (y : list Z) (L : list (list R)) :
  run (RealLoss.with_loss_kernels device K) sess feed labels rng
  = inr (RealLoss.Labels y, rng1) →
  run (RealLoss.with_loss_kernels device K) sess feed logits rng1
  = inr (RealLoss.Matrix L, rng2) →
  run (RealLoss.with_loss_kernels device K) sess feed
    (ReduceMean (SparseSoftmaxCrossEntropyWithLogits labels logits)) rng
  = (v <-! RealLoss.sparse_softmax_cross_entropy device (RealLoss.Labels y)
             (RealLoss.Matrix L) ;;
     v' <-! RealLoss.reduce_mean v ;;
     inr (v', rng2)).
Proof.
  intros Hl Hp. cbn [run]. rewrite Hl. cbn [ebind fst snd]. rewrite Hp.
  cbn [ebind fst snd k_sparse_softmax_cross_entropy k_reduce_mean
       RealLoss.with_loss_kernels].
  by destruct (RealLoss.sparse_softmax_cross_entropy _ _ _).
Qed.

(** The loss of a batch fed to the two placeholders. *)
Lemma loss_value_eq (p : Piczak) (device : RealLoss.Device) (y : list Z)
    (L : list (list R)) :
  loss_value p device y L
  = if bool_decide (length y = length L)
    then ls <-! RealLoss.xent_rows device y L ;;
         inr (RealLoss.Scalar (RealLoss.mean_number ls))
    else inl (InvalidArgumentError FirstDimensionMismatch).
Proof.
  unfold loss_value.
  rewrite (get_loss_op_rank2 p unknown_logits unknown_labels empty_graph
             None None None eq_refl eq_refl).
  cbn [merge_dim fst op]. unfold run_value, loss_only_kernels.
  change (op unknown_labels) with (Placeholder "labels").
  change (op unknown_logits) with (Placeholder "logits").
  rewrite (run_loss_node _ device ∅ _ _ _ tt tt tt y L).
  - cbn [RealLoss.sparse_softmax_cross_entropy].
    case_bool_decide; [|done].
    destruct (RealLoss.xent_rows device y L) as [e|ls]; done.
  - cbn [run]. unfold read_feed. rewrite lookup_insert_ne by done.
    by rewrite lookup_singleton_eq.
  - cbn [run]. unfold read_feed. by rewrite lookup_insert_eq.
Qed.




(** C8, as stated, fails in its second half: a label outside [0, C) raises
    no shape-mismatch error.  The loss op is built from the static shapes,
    which do not show the label values, and the construction succeeds.  The
    run with the label 5 and two classes ends, on the CPU, in the kernel's
    invalid-argument error about the label value, not about a shape; on the
    GPU it ends in no error at all: the loss is NaN. *)
Lemma label_out_of_range_is_no_shape_error :
  ∃ loss,
    get_loss_op reference_model (logits_placeholder 1 2) (labels_placeholder 1)
      empty_graph = (inr loss, empty_graph)
    ∧ run_value (loss_only_kernels RealLoss.CPU) ∅
        {[ "logits" := RealLoss.Matrix [[0; 0]]%R;
           "labels" := RealLoss.Labels [5] ]}
        (op loss) tt
      = inl (InvalidArgumentError LabelOutOfRange)
    ∧ run_value (loss_only_kernels RealLoss.GPU) ∅
        {[ "logits" := RealLoss.Matrix [[0; 0]]%R;
           "labels" := RealLoss.Labels [5] ]}
        (op loss) tt
      = inr (RealLoss.Scalar RealLoss.NaN).
Proof.
  eexists. split; [vm_compute; reflexivity|].
  split; vm_compute; reflexivity.
Qed.

(** C8 (amended): whenever the batch sizes of the logits and of the labels
    differ, the loss evaluator fails with an error about the shapes, on
    either device: when both sizes are known statically, [get_loss_op]
    raises the shape-mismatch error as it builds the op; otherwise the op is
    built, and its run fails in the kernel's check of the first dimensions.
    The batch sizes are those of the values the two tensors take in the
    run; a size that is known statically is the size of the value.  (A
    label out of range raises no such error.) *)
Theorem get_loss_op_batch_sizes {RNG : Type}
    (K : Kernels RealLoss.Value RNG) (device : RealLoss.Device) (p : Piczak)
    (prediction label_tensor : Tensor) (g : Graph) (n c m : Dim)
    (sess feed : gmap string RealLoss.Value) (rng rng1 rng2 : RNG)
    (y : list Z) (L : list (list R)) :
  get_shape prediction = [n; c] →
  get_shape label_tensor = [m] →
  (∀ N, n = Some N → N = Z.of_nat (length L)) →
  (∀ M, m = Some M → M = Z.of_nat (length y)) →
  run (RealLoss.with_loss_kernels device K) sess feed (op label_tensor) rng
  = inr (RealLoss.Labels y, rng1) →
  run (RealLoss.with_loss_kernels device K) sess feed (op prediction) rng1
  = inr (RealLoss.Matrix L, rng2) →
  length y ≠ length L →
  match n, m with
  | Some _, Some _ =>
      get_loss_op p prediction label_tensor g = (inl ShapeMismatch, g)
  | _, _ =>
      ∃ loss,
        get_loss_op p prediction label_tensor g = (inr loss, g)
        ∧ run (RealLoss.with_loss_kernels device K) sess feed (op loss) rng
          = inl (InvalidArgumentError FirstDimensionMismatch)
  end.
Proof.
  intros Hp Hl Hn Hm Hrun_l Hrun_p Hne.
  rewrite (get_loss_op_rank2 p _ _ g _ _ _ Hp Hl).
  assert (run (RealLoss.with_loss_kernels device K) sess feed
            (ReduceMean (SparseSoftmaxCrossEntropyWithLogits (op label_tensor)
                           (op prediction))) rng
          = inl (InvalidArgumentError FirstDimensionMismatch)) as Hrun.
  { rewrite (run_loss_node K device sess feed _ _ rng rng1 rng2 y L) by done.
    cbn [RealLoss.sparse_softmax_cross_entropy].
    by rewrite bool_decide_eq_false_2. }
  destruct n as [N|], m as [M|]; cbn [merge_dim].
  - rewrite (Hn N eq_refl), (Hm M eq_refl).
    destruct (Z.eqb_spec (Z.of_nat (length L)) (Z.of_nat (length y))); [lia | done].
  - by eexists.
  - by eexists.
  - by eexists.
Qed.

Lemma get_loss_op_batch_sizes_witness :
  get_loss_op reference_model (logits_placeholder 2 2) (labels_placeholder 3)
    empty_graph = (inl ShapeMismatch, empty_graph)
  ∧ ∃ loss,
      get_loss_op reference_model unknown_logits unknown_labels empty_graph
      = (inr loss, empty_graph)
      ∧ run (RealLoss.with_loss_kernels RealLoss.GPU
               (loss_only_kernels RealLoss.GPU)) ∅
          {[ "logits" := RealLoss.Matrix [[1; 2]; [3; 4]]%R;
             "labels" := RealLoss.Labels [0; 1; 0] ]}
          (op loss) tt
        = inl (InvalidArgumentError FirstDimensionMismatch).
Proof.
  split.
  - apply (get_loss_op_batch_sizes (loss_only_kernels RealLoss.GPU) RealLoss.GPU
             reference_model (logits_placeholder 2 2) (labels_placeholder 3)
             empty_graph (Some 2) (Some 2) (Some 3) ∅
             {[ "logits" := RealLoss.Matrix [[1; 2]; [3; 4]]%R;
                "labels" := RealLoss.Labels [0; 1; 0] ]}
             tt tt tt [0; 1; 0] [[1; 2]; [3; 4]]%R).
    + reflexivity.
    + reflexivity.
    + by intros N [= <-].
    + by intros M [= <-].
    + vm_compute. reflexivity.
    + vm_compute. reflexivity.
    + simpl. lia.
  - apply (get_loss_op_batch_sizes (loss_only_kernels RealLoss.GPU) RealLoss.GPU
             reference_model unknown_logits unknown_labels
             empty_graph None None None ∅
             {[ "logits" := RealLoss.Matrix [[1; 2]; [3; 4]]%R;
                "labels" := RealLoss.Labels [0; 1; 0] ]}
             tt tt tt [0; 1; 0] [[1; 2]; [3; 4]]%R).
    + reflexivity.
    + reflexivity.
    + by intros N [=].
    + by intros M [=].
    + vm_compute. reflexivity.
    + vm_compute. reflexivity.
    + simpl. lia.
Defined.

(** C10: the loss op, and so its value in any session, is the same for any
    two instances of the class: [get_loss_op] reads no field of [self]. *)
Theorem get_loss_op_ignores_instance {V RNG : Type} (K : Kernels V RNG)
    (p1 p2 : Piczak) (prediction label_tensor : Tensor) (g : Graph)
    (sess feed : gmap string V) (rng : RNG) :
  get_loss_op p1 prediction label_tensor g = get_loss_op p2 prediction label_tensor g
  ∧ (run_value K sess feed (built (get_loss_op p1 prediction label_tensor g) prediction).(op) rng
     = run_value K sess feed (built (get_loss_op p2 prediction label_tensor g) prediction).(op) rng).
Proof. split; reflexivity. Qed.

(** * Further properties of the construction *)

(** ** The graph only grows *)

Lemma extends_refl g : extends g g.
Proof. split; [done|]. exists []. by rewrite app_nil_r. Qed.

Lemma extends_trans g1 g2 g3 : extends g1 g2 → extends g2 g3 → extends g1 g3.
Proof.
  intros [Hs1 [vs1 Hv1]] [Hs2 [vs2 Hv2]]. split; [congruence|].
  exists (vs1 ++ vs2). by rewrite Hv2, Hv1, app_assoc.
Qed.

Lemma keeps_ret {A} (a : A) : keeps (ret a).
Proof. intros g. apply extends_refl. Qed.

Lemma keeps_throw {A} (e : Exn) : keeps (throw (A := A) e).
Proof. intros g. apply extends_refl. Qed.

Lemma keeps_lift {A} (r : Exn + A) : keeps (lift r).
Proof. intros g. apply extends_refl. Qed.

Lemma keeps_bind {A B} (m : M A) (k : A → M B) :
  keeps m → (∀ a, keeps (k a)) → keeps (bind m k).
Proof.
  intros Hm Hk g. unfold bind. specialize (Hm g).
  destruct (m g) as [[e|a] g1]; [exact Hm|].
  eapply extends_trans; [exact Hm | apply Hk].
Qed.

Lemma keeps_variable_scope {A} name (body : M A) :
  keeps body → keeps (variable_scope name body).
Proof.
  intros Hb g. unfold variable_scope.
  destruct (Hb (set_scope (scope g +:+ name +:+ "/") g)) as [_ [vs Hvs]].
  split; [done|]. exists vs. exact Hvs.
Qed.

Lemma keeps_get_variable name shape i r : keeps (get_variable name shape i r).
Proof.
  intros g. unfold get_variable. case_bool_decide; [apply extends_refl|].
  destruct (forallb _ _); [|apply extends_refl].
  split; [done|]. by eexists.
Qed.

Ltac keeps_step :=
  first [ apply keeps_bind; [|intros ?]
        | apply keeps_variable_scope
        | apply keeps_get_variable
        | apply keeps_ret
        | apply keeps_throw
        | apply keeps_lift ].

Lemma keeps_slim_convolution x out ks st wi bi wr br sc :
  keeps (slim_convolution x out ks st wi bi wr br sc).
Proof.
  unfold slim_convolution. apply keeps_variable_scope.
  repeat case_match; repeat keeps_step.
Qed.

Lemma keeps_slim_fully_connected x out wi bi wr br sc :
  keeps (slim_fully_connected x out wi bi wr br sc).
Proof.
  unfold slim_fully_connected. apply keeps_variable_scope.
  repeat case_match; repeat keeps_step.
Qed.

Lemma keeps_slim_pool x ks st : keeps (slim_pool x ks st).
Proof. unfold slim_pool. repeat case_match; repeat keeps_step. Qed.

Lemma keeps_slim_dropout x keep tr sc : keeps (slim_dropout x keep tr sc).
Proof. unfold slim_dropout. repeat keeps_step. Qed.

Lemma keeps_tf_reshape x target : keeps (tf_reshape x target).
Proof. unfold tf_reshape. repeat case_match; repeat keeps_step. Qed.

Lemma keeps_reshape_stage x : keeps (reshape_stage x).
Proof.
  unfold reshape_stage, transpose_stage, merge_stage, flatten_stage,
    tf_transpose, shape_index, int_.
  repeat first [ keeps_step | apply keeps_tf_reshape | case_match ].
Qed.

(** Whatever [build_predict_op] returns or raises, it leaves the variable
    scope of the graph as it found it and keeps every variable the graph
    had, in place: it only appends. *)
Theorem build_predict_op_keeps_graph
    (p : Piczak) (x : Tensor) (is_training : bool) (g : Graph) :
  scope (build_predict_op p x is_training g).2 = scope g
  ∧ ∃ vs, global_variables (build_predict_op p x is_training g).2
          = global_variables g ++ vs.
Proof.
  assert (keeps (build_predict_op p x is_training)) as H; [|exact (H g)].
  unfold build_predict_op, build_features, build_dense, conv_block_1, conv_block_2,
    dense_block, output_layer, tf_nn_relu.
  repeat first [ apply keeps_slim_convolution | apply keeps_slim_fully_connected
               | apply keeps_slim_pool | apply keeps_slim_dropout
               | apply keeps_reshape_stage | keeps_step ].
Qed.

(** ** The variables a layer creates, with their shapes and initializers *)

Lemma var_names_with_variables g vs :
  var_names (with_variables g vs) = var_names g ++ (var_name <$> vs).
Proof. unfold var_names. simpl. by rewrite fmap_app. Qed.

Lemma with_variables_app g vs1 vs2 :
  with_variables (with_variables g vs1) vs2 = with_variables g (vs1 ++ vs2).
Proof. unfold with_variables. simpl. by rewrite app_assoc. Qed.

Lemma get_variable_run name shape i r g :
  scope g +:+ name ∉ var_names g →
  Forall (λ d, 0 ≤ d) shape →
  get_variable name shape i r g
  = (inr (scope g +:+ name),
     with_variables g [{| var_name := scope g +:+ name; var_shape := shape;
                          var_init := i; var_reg := r |}]).
Proof.
  intros Hfresh Hshape. unfold get_variable.
  by rewrite bool_decide_eq_false_2, forallb_nonneg.
Qed.


(** A layer with two variables, [weights] then [biases], created under its
    own scope on a graph where both names are free. *)
Lemma two_variables_run {A} (k : string → string → M A) sc wshape out wi bi wr br g :
  Forall (λ d, 0 ≤ d) wshape → 0 ≤ out →
  (scope g +:+ sc +:+ "/") +:+ "weights" ∉ var_names g →
  (scope g +:+ sc +:+ "/") +:+ "biases" ∉ var_names g →
  (∀ w b g1, (k w b g1).2 = g1) →
  variable_scope sc
    (weights <- get_variable "weights" wshape wi wr ;;
     biases <- get_variable "biases" [out] bi br ;;
     k weights biases) g
  = ((k ((scope g +:+ sc +:+ "/") +:+ "weights")
        ((scope g +:+ sc +:+ "/") +:+ "biases")
        (with_variables (set_scope (scope g +:+ sc +:+ "/") g)
           [{| var_name := (scope g +:+ sc +:+ "/") +:+ "weights";
               var_shape := wshape; var_init := wi; var_reg := wr |};
            {| var_name := (scope g +:+ sc +:+ "/") +:+ "biases";
               var_shape := [out]; var_init := bi; var_reg := br |}])).1,
     with_variables g
       [{| var_name := (scope g +:+ sc +:+ "/") +:+ "weights";
           var_shape := wshape; var_init := wi; var_reg := wr |};
        {| var_name := (scope g +:+ sc +:+ "/") +:+ "biases";
           var_shape := [out]; var_init := bi; var_reg := br |}]).
Proof.
  intros Hw Hout Hfw Hfb Hk.
  set (g0 := set_scope (scope g +:+ sc +:+ "/") g).
  pose proof (get_variable_run "weights" wshape wi wr g0 Hfw Hw) as E1.
  set (g1 := with_variables g0 _) in E1.
  assert (get_variable "biases" [out] bi br g1
          = (inr (scope g1 +:+ "biases"),
             with_variables g1 [{| var_name := scope g1 +:+ "biases";
                                   var_shape := [out]; var_init := bi;
                                   var_reg := br |}])) as E2.
  { apply get_variable_run; [|by repeat constructor].
    unfold g1. rewrite var_names_with_variables, elem_of_app.
    intros [?|Hin]; [by apply Hfb|].
    apply list_elem_of_singleton in Hin. by eapply weights_biases_distinct. }
  unfold variable_scope. fold g0.
  rewrite (bind_ok _ _ _ _ _ E1), (bind_ok _ _ _ _ _ E2).
  unfold g1. rewrite with_variables_app. cbn [app scope with_variables set_scope g0].
  match goal with |- (?a.1, set_scope _ ?b.2) = _ =>
    rewrite (surjective_pairing b) at 1 end.
  rewrite Hk. reflexivity.
Qed.

Lemma slim_convolution_full x out kh kw sh sw wi bi wr br sc g n h w c :
  get_shape x = [n; h; w; Some c] →
  0 ≤ kh → 0 ≤ kw → 0 ≤ c → 0 ≤ out →
  (scope g +:+ sc +:+ "/") +:+ "weights" ∉ var_names g →
  (scope g +:+ sc +:+ "/") +:+ "biases" ∉ var_names g →
  slim_convolution x out (kh, kw) (sh, sw) wi bi wr br sc g
  = (h' <-! windowed_output_size h kh sh ;;
     w' <-! windowed_output_size w kw sw ;;
     inr {| op := Conv2D (op x) ((scope g +:+ sc +:+ "/") +:+ "weights")
                         ((scope g +:+ sc +:+ "/") +:+ "biases") (sh, sw);
            get_shape := [n; h'; w'; Some out] |},
     with_variables g
       [{| var_name := (scope g +:+ sc +:+ "/") +:+ "weights";
           var_shape := [kh; kw; c; out]; var_init := wi; var_reg := wr |};
        {| var_name := (scope g +:+ sc +:+ "/") +:+ "biases";
           var_shape := [out]; var_init := bi; var_reg := br |}]).
Proof.
  intros Hx Hkh Hkw Hc Hout Hfw Hfb. unfold slim_convolution. rewrite Hx.
  cbn [fst snd].
  rewrite (two_variables_run
             (λ weights biases,
                h' <- lift (windowed_output_size h kh sh) ;;
                w' <- lift (windowed_output_size w kw sw) ;;
                ret {| op := Conv2D (op x) weights biases (sh, sw);
                       get_shape := [n; h'; w'; Some out] |}));
    try done.
  - f_equal. unfold bind, lift, ret.
    destruct (windowed_output_size h kh sh); [done|].
    by destruct (windowed_output_size w kw sw).
  - by repeat constructor.
  - intros ???. unfold bind, lift, ret.
    destruct (windowed_output_size h kh sh); [done|].
    by destruct (windowed_output_size w kw sw).
Qed.

Lemma slim_fully_connected_full x out wi bi wr br sc g n d :
  get_shape x = [n; Some d] →
  0 ≤ d → 0 ≤ out →
  (scope g +:+ sc +:+ "/") +:+ "weights" ∉ var_names g →
  (scope g +:+ sc +:+ "/") +:+ "biases" ∉ var_names g →
  slim_fully_connected x out wi bi wr br sc g
  = (inr {| op := FullyConnected (op x) ((scope g +:+ sc +:+ "/") +:+ "weights")
                                 ((scope g +:+ sc +:+ "/") +:+ "biases");
            get_shape := [n; Some out] |},
     with_variables g
       [{| var_name := (scope g +:+ sc +:+ "/") +:+ "weights";
           var_shape := [d; out]; var_init := wi; var_reg := wr |};
        {| var_name := (scope g +:+ sc +:+ "/") +:+ "biases";
           var_shape := [out]; var_init := bi; var_reg := br |}]).
Proof.
  intros Hx Hd Hout Hfw Hfb. unfold slim_fully_connected. rewrite Hx.
  cbn [length last removelast app bool_decide decide_rel].
  rewrite (bool_decide_eq_false_2 (2 < 2)%nat) by lia.
  by rewrite (two_variables_run
                (λ weights biases,
                   ret {| op := FullyConnected (op x) weights biases;
                          get_shape := [n; Some out] |}))
    by (done || by repeat constructor).
Qed.

(** ** Computations that leave the graph alone *)

Lemma graph_free_ret {A} (a : A) : graph_free (ret a).
Proof. done. Qed.

Lemma graph_free_throw {A} (e : Exn) : graph_free (throw (A := A) e).
Proof. done. Qed.

Lemma graph_free_lift {A} (r : Exn + A) : graph_free (lift r).
Proof. done. Qed.

Lemma graph_free_bind {A B} (m : M A) (k : A → M B) :
  graph_free m → (∀ a, graph_free (k a)) → graph_free (bind m k).
Proof.
  intros Hm Hk g. unfold bind. specialize (Hm g).
  destruct (m g) as [[e|a] g1]; simpl in Hm; subst g1; [done | apply Hk].
Qed.

Ltac graph_free_step :=
  first [ apply graph_free_bind; [|intros ?]
        | apply graph_free_ret
        | apply graph_free_throw
        | apply graph_free_lift ].

Lemma graph_free_tf_reshape x target : graph_free (tf_reshape x target).
Proof. unfold tf_reshape. repeat case_match; repeat graph_free_step. Qed.

Lemma graph_free_reshape_stage x : graph_free (reshape_stage x).
Proof.
  unfold reshape_stage, transpose_stage, merge_stage, flatten_stage,
    tf_transpose, shape_index, int_.
  repeat first [ graph_free_step | apply graph_free_tf_reshape | case_match ].
Qed.

Lemma graph_free_slim_pool x ks st : graph_free (slim_pool x ks st).
Proof. unfold slim_pool. repeat case_match; repeat graph_free_step. Qed.

Lemma graph_free_get_loss_op p prediction label_tensor :
  graph_free (get_loss_op p prediction label_tensor).
Proof.
  unfold get_loss_op, tf_nn_sparse_softmax_cross_entropy_with_logits, tf_reduce_mean.
  repeat first [ graph_free_step | case_match ].
Qed.

Lemma run_graph_free {A} (m : M A) g : graph_free m → m g = ((m g).1, g).
Proof. intros H. rewrite <- (H g) at 3. apply surjective_pairing. Qed.

(** ** The convolutional blocks on any rank-4 input *)

Lemma conv_specs_unfold p s c :
  conv_specs p s c
  = [{| var_name := weights_of s "cnn_1"; var_shape := [57; 6; c; 80];
        var_init := W_init p; var_reg := W_reg p |};
     {| var_name := biases_of s "cnn_1"; var_shape := [80];
        var_init := b_init p; var_reg := b_reg p |};
     {| var_name := weights_of s "cnn_2"; var_shape := [1; 3; 80; 80];
        var_init := W_init p; var_reg := W_reg p |};
     {| var_name := biases_of s "cnn_2"; var_shape := [80];
        var_init := b_init p; var_reg := b_reg p |}].
Proof. done. Qed.

Lemma build_features_run p x tr s g n h w c :
  get_shape x = [n; h; w; Some c] → 0 ≤ c →
  scope g = s +:+ "piczak" +:+ "/" →
  (∀ v, v ∈ [weights_of s "cnn_1"; biases_of s "cnn_1";
             weights_of s "cnn_2"; biases_of s "cnn_2"] → v ∉ var_names g) →
  match pooled_sizes h w with
  | inl e => (build_features p x tr g).1 = inl e
  | inr hw =>
      build_features p x tr g
      = ((reshape_stage {| op := conv_node s (op x) tr;
                           get_shape := [n; hw.1; hw.2; Some 80] |}
            (with_variables g (conv_specs p s c))).1,
         with_variables g (conv_specs p s c))
  end.
Proof.
  intros Hx Hc Hs Hfresh.
  assert (0 ≤ 57) as H57 by lia. assert (0 ≤ 6) as H6 by lia.
  assert (0 ≤ 80) as H80 by lia. assert (0 ≤ 1) as H1 by lia.
  assert (0 ≤ 3) as H3 by lia.
  pose proof (slim_convolution_full x 80 57 6 1 1 (W_init p) (b_init p) (W_reg p)
                (b_reg p) "cnn_1" g n h w c Hx H57 H6 Hc H80) as E1.
  rewrite Hs in E1.
  assert (weights_of s "cnn_1" ∉ var_names g) as Hf1
    by (apply Hfresh; set_unfold; tauto).
  assert (biases_of s "cnn_1" ∉ var_names g) as Hf2
    by (apply Hfresh; set_unfold; tauto).
  specialize (E1 Hf1 Hf2).
  match type of E1 with _ = (_, ?g') => set (g1 := g') in * end.
  unfold pooled_sizes, build_features, conv_block_1.
  destruct (windowed_output_size h 57 1) as [e|h1]; cbn [ebind] in *;
    [by rewrite (bind_fail _ _ _ _ _ (bind_fail _ _ _ _ _ E1))|].
  destruct (windowed_output_size w 6 1) as [e|w1]; cbn [ebind] in *;
    [by rewrite (bind_fail _ _ _ _ _ (bind_fail _ _ _ _ _ E1))|].
  match type of E1 with _ = (inr ?t, _) => set (c1 := t) in * end.
  set (r1 := {| op := Relu (op c1); get_shape := get_shape c1 |}).
  set (d1 := {| op := Dropout (op r1) (1 # 2)%Q tr; get_shape := get_shape r1 |}).
  pose proof (slim_pool_run d1 4 3 1 3 g1 _ _ _ _ eq_refl) as P1.
  assert (∀ R, slim_pool d1 (4, 3) (1, 3) g1 = (R, g1) →
               conv_block_1 p x tr g = (R, g1)) as B1.
  { intros R HR. unfold conv_block_1. rewrite (bind_ok _ _ _ _ _ E1).
    rewrite (bind_ok _ _ _ _ _ (tf_nn_relu_eq c1 g1)).
    by rewrite (bind_ok _ _ _ _ _ (slim_dropout_eq r1 _ tr "cnn_1" g1)). }
  apply B1 in P1. clear B1. fold (conv_block_1 p x tr).
  destruct (windowed_output_size h1 4 1) as [e|h2]; cbn [ebind] in *;
    [by rewrite (bind_fail _ _ _ _ _ P1)|].
  destruct (windowed_output_size w1 3 3) as [e|w2]; cbn [ebind] in *;
    [by rewrite (bind_fail _ _ _ _ _ P1)|].
  match type of P1 with _ = (inr ?t, _) => set (p1 := t) in * end.
  rewrite (bind_ok _ _ _ _ _ P1).
  pose proof (slim_convolution_full p1 80 1 3 1 1 (W_init p) (b_init p) (W_reg p)
                (b_reg p) "cnn_2" g1 n h2 w2 80 eq_refl H1 H3 H80 H80) as E2.
  assert (scope g1 = s +:+ "piczak" +:+ "/") as Hs1 by done.
  rewrite Hs1 in E2.
  assert (∀ v, v ∈ [weights_of s "cnn_2"; biases_of s "cnn_2"] → v ∉ var_names g1)
    as Hfresh1.
  { intros v Hv. unfold g1. rewrite var_names_with_variables.
    cbn [fmap list_fmap var_name].
    intros [Hin|Hin]%elem_of_app; [apply (Hfresh v); [set_unfold; tauto | exact Hin]|].
    revert Hin.
    apply elem_of_cons in Hv as [->|Hv];
      [|apply list_elem_of_singleton in Hv as ->];
      match goal with |- ?a ∈ ?l → False => change (a ∉ l) end; names_distinct. }
  assert (weights_of s "cnn_2" ∉ var_names g1) as Hf3
    by (apply Hfresh1; set_unfold; tauto).
  assert (biases_of s "cnn_2" ∉ var_names g1) as Hf4
    by (apply Hfresh1; set_unfold; tauto).
  specialize (E2 Hf3 Hf4).
  unfold g1 in E2 at 2. rewrite with_variables_app in E2. cbn [app] in E2.
  fold (weights_of s "cnn_1") (biases_of s "cnn_1")
       (weights_of s "cnn_2") (biases_of s "cnn_2") in E2.
  rewrite <- conv_specs_unfold in E2.
  set (g2 := with_variables g (conv_specs p s c)) in *.
  unfold conv_block_2.
  destruct (windowed_output_size h2 1 1) as [e|h3]; cbn [ebind] in *;
    [by rewrite (bind_fail _ _ _ _ _ (bind_fail _ _ _ _ _ E2))|].
  destruct (windowed_output_size w2 3 1) as [e|w3]; cbn [ebind] in *;
    [by rewrite (bind_fail _ _ _ _ _ (bind_fail _ _ _ _ _ E2))|].
  match type of E2 with _ = (inr ?t, _) => set (c2 := t) in * end.
  set (r2 := {| op := Relu (op c2); get_shape := get_shape c2 |}).
  pose proof (slim_pool_run r2 1 3 1 3 g2 _ _ _ _ eq_refl) as P2.
  assert (∀ R, slim_pool r2 (1, 3) (1, 3) g2 = (R, g2) →
               conv_block_2 p p1 g1 = (R, g2)) as B2.
  { intros R HR. unfold conv_block_2. rewrite (bind_ok _ _ _ _ _ E2).
    by rewrite (bind_ok _ _ _ _ _ (tf_nn_relu_eq c2 g2)). }
  apply B2 in P2. clear B2. fold (conv_block_2 p p1).
  destruct (windowed_output_size h3 1 1) as [e|h4]; cbn [ebind] in *;
    [by rewrite (bind_fail _ _ _ _ _ P2)|].
  destruct (windowed_output_size w3 3 3) as [e|w4]; cbn [ebind] in *;
    [by rewrite (bind_fail _ _ _ _ _ P2)|].
  rewrite (bind_ok _ _ _ _ _ P2). cbn [fst snd].
  apply (run_graph_free (reshape_stage _) g2), graph_free_reshape_stage.
Qed.

(** ** Sizes after the two convolutional blocks *)

Lemma pooled_sizes_fit (F T : Z) :
  60 ≤ F → 20 ≤ T →
  pooled_sizes (Some F) (Some T)
  = inr (Some (F - 59), Some (((T - 5) / 3 - 2) / 3)).
Proof.
  intros HF HT. unfold pooled_sizes, windowed_output_size.
  repeat (rewrite ?Z.div_1_r;
          match goal with
          | |- context [?a <? ?b] =>
              destruct (Z.ltb_spec a b); [Z.div_mod_to_equations; lia|]
          end; cbn [ebind]).
  rewrite ?Z.div_1_r. apply f_equal.
  apply f_equal2; apply f_equal; Z.div_mod_to_equations; lia.
Qed.

Lemma pooled_sizes_small (F T : Z) :
  F < 60 ∨ T < 20 → pooled_sizes (Some F) (Some T) = inl ShapeMismatch.
Proof.
  intros Hsmall. unfold pooled_sizes, windowed_output_size.
  repeat (rewrite ?Z.div_1_r;
          match goal with
          | |- context [?a <? ?b] => destruct (Z.ltb_spec a b); [done|]
          end; cbn [ebind]).
  Z.div_mod_to_equations. lia.
Qed.

Lemma pooled_sizes_unknown_height (w : Dim) (hw : Dim * Dim) :
  pooled_sizes None w = inr hw → hw.1 = None.
Proof.
  unfold pooled_sizes. cbn [windowed_output_size ebind].
  repeat (match goal with
          | |- context [windowed_output_size ?d ?k ?s] =>
              destruct (windowed_output_size d k s); cbn [ebind]; [done|]
          end).
  by intros [= <-].
Qed.

Lemma pooled_sizes_unknown_width (h : Dim) (hw : Dim * Dim) :
  pooled_sizes h None = inr hw → hw.2 = None.
Proof.
  unfold pooled_sizes.
  repeat (match goal with
          | |- context [windowed_output_size (Some ?n) ?k ?s] => fail 1
          | |- context [windowed_output_size None ?k ?s] =>
              change (windowed_output_size None k s) with (inr (B := Dim) (A := Exn) None)
          | |- context [windowed_output_size ?d ?k ?s] =>
              destruct (windowed_output_size d k s); [done|]
          end; cbn [ebind]).
  by intros [= <-].
Qed.

(** ** The whole pipeline, case by case *)

Lemma reshape_stage_unknown x n h w c g :
  get_shape x = [n; h; w; c] →
  h = None ∨ w = None →
  reshape_stage x g = (inl TypeError, g).
Proof.
  intros Hx Hnone.
  unfold reshape_stage, transpose_stage, tf_transpose. rewrite Hx.
  cbn [length bool_decide decide_rel]. rewrite bool_decide_eq_true_2 by done.
  cbn. unfold bind, merge_stage, shape_index, int_, ret, throw. cbn.
  destruct w as [W|]; [|done]. destruct Hnone as [->|?]; [|done]. done.
Qed.

Lemma build_predict_op_features_fail p x tr g e :
  (build_features p x tr (set_scope (scope g +:+ "piczak" +:+ "/") g)).1 = inl e →
  (build_predict_op p x tr g).1 = inl e.
Proof.
  unfold build_predict_op, variable_scope, bind. cbn [fst].
  destruct (build_features _ _ _ _) as [[e'|f] g1]; cbn [fst]; [|done].
  by intros [= ->].
Qed.

Lemma fresh_conv_names g :
  fresh_for_piczak g →
  ∀ v, v ∈ [weights_of (scope g) "cnn_1"; biases_of (scope g) "cnn_1";
            weights_of (scope g) "cnn_2"; biases_of (scope g) "cnn_2"] →
       v ∉ var_names (set_scope (scope g +:+ "piczak" +:+ "/") g).
Proof.
  intros Hfresh v Hv. apply Hfresh. rewrite piczak_variables_unfold.
  set_unfold. tauto.
Qed.

Lemma build_dense_full p x tr s g n d :
  get_shape x = [n; Some d] → 0 ≤ d → 0 ≤ num_classes p →
  scope g = s +:+ "piczak" +:+ "/" →
  (∀ v, v ∈ [weights_of s "dense_1"; biases_of s "dense_1";
             weights_of s "dense_2"; biases_of s "dense_2";
             weights_of s "output"; biases_of s "output"] → v ∉ var_names g) →
  build_dense p x tr g
  = (inr {| op := dense_node s (op x) tr; get_shape := [n; Some (num_classes p)] |},
     with_variables g (dense_specs p s d)).
Proof.
  intros Hx Hd Hnc Hs Hfresh.
  assert (0 ≤ 5000) as H5000 by lia.
  pose proof (slim_fully_connected_full x 5000 (W_init p) (b_init p) (W_reg p)
                (b_reg p) "dense_1" g n d Hx Hd H5000) as E1.
  rewrite Hs in E1.
  assert (weights_of s "dense_1" ∉ var_names g) as Hf1
    by (apply Hfresh; set_unfold; tauto).
  assert (biases_of s "dense_1" ∉ var_names g) as Hf2
    by (apply Hfresh; set_unfold; tauto).
  specialize (E1 Hf1 Hf2).
  match type of E1 with _ = (inr ?t, ?g') => set (f1 := t) in *; set (g1 := g') in * end.
  set (r1 := {| op := Relu (op f1); get_shape := get_shape f1 |}).
  set (d1 := {| op := Dropout (op r1) (1 # 2)%Q tr; get_shape := get_shape r1 |}).
  assert (dense_block p x tr "dense_1" g = (inr d1, g1)) as B1.
  { unfold dense_block. rewrite (bind_ok _ _ _ _ _ E1).
    rewrite (bind_ok _ _ _ _ _ (tf_nn_relu_eq f1 g1)).
    apply slim_dropout_eq. }
  pose proof (slim_fully_connected_full d1 5000 (W_init p) (b_init p) (W_reg p)
                (b_reg p) "dense_2" g1 n 5000 eq_refl H5000 H5000) as E2.
  assert (scope g1 = s +:+ "piczak" +:+ "/") as Hs1 by done.
  rewrite Hs1 in E2.
  assert (weights_of s "dense_2" ∉ var_names g1) as Hf3.
  { unfold g1. rewrite var_names_with_variables. cbn [fmap list_fmap var_name].
    intros [Hin|Hin]%elem_of_app; [apply (Hfresh (weights_of s "dense_2"));
                                   [set_unfold; tauto | exact Hin]|].
    revert Hin. match goal with |- ?a ∈ ?l → False => change (a ∉ l) end.
    names_distinct. }
  assert (biases_of s "dense_2" ∉ var_names g1) as Hf4.
  { unfold g1. rewrite var_names_with_variables. cbn [fmap list_fmap var_name].
    intros [Hin|Hin]%elem_of_app; [apply (Hfresh (biases_of s "dense_2"));
                                   [set_unfold; tauto | exact Hin]|].
    revert Hin. match goal with |- ?a ∈ ?l → False => change (a ∉ l) end.
    names_distinct. }
  specialize (E2 Hf3 Hf4).
  unfold g1 in E2 at 2. rewrite with_variables_app in E2. cbn [app] in E2.
  match type of E2 with _ = (inr ?t, ?g') => set (f2 := t) in *; set (g2 := g') in * end.
  set (r2 := {| op := Relu (op f2); get_shape := get_shape f2 |}).
  set (d2 := {| op := Dropout (op r2) (1 # 2)%Q tr; get_shape := get_shape r2 |}).
  assert (dense_block p d1 tr "dense_2" g1 = (inr d2, g2)) as B2.
  { unfold dense_block. rewrite (bind_ok _ _ _ _ _ E2).
    rewrite (bind_ok _ _ _ _ _ (tf_nn_relu_eq f2 g2)).
    apply slim_dropout_eq. }
  pose proof (slim_fully_connected_full d2 (num_classes p) (W_init p) (b_init p)
                (W_reg p) (b_reg p) "output" g2 n 5000 eq_refl H5000 Hnc) as E3.
  assert (scope g2 = s +:+ "piczak" +:+ "/") as Hs2 by done.
  rewrite Hs2 in E3.
  assert (weights_of s "output" ∉ var_names g2) as Hf5.
  { unfold g2. rewrite var_names_with_variables. cbn [fmap list_fmap var_name].
    intros [Hin|Hin]%elem_of_app; [apply (Hfresh (weights_of s "output"));
                                   [set_unfold; tauto | exact Hin]|].
    revert Hin. match goal with |- ?a ∈ ?l → False => change (a ∉ l) end.
    names_distinct. }
  assert (biases_of s "output" ∉ var_names g2) as Hf6.
  { unfold g2. rewrite var_names_with_variables. cbn [fmap list_fmap var_name].
    intros [Hin|Hin]%elem_of_app; [apply (Hfresh (biases_of s "output"));
                                   [set_unfold; tauto | exact Hin]|].
    revert Hin. match goal with |- ?a ∈ ?l → False => change (a ∉ l) end.
    names_distinct. }
  specialize (E3 Hf5 Hf6).
  unfold g2 in E3 at 2. rewrite with_variables_app in E3. cbn [app] in E3.
  unfold build_dense, output_layer.
  by rewrite (bind_ok _ _ _ _ _ B1), (bind_ok _ _ _ _ _ B2), E3.
Qed.

Lemma build_predict_op_full p x tr g n F T c :
  get_shape x = [n; Some F; Some T; Some c] →
  60 ≤ F → 20 ≤ T → 0 ≤ c → 0 ≤ num_classes p →
  fresh_for_piczak g →
  ∃ f g1 t,
    flatten_output p x tr g = (inr f, g1)
    ∧ get_shape f = [n; Some (((T - 5) / 3 - 2) / 3 * ((F - 59) * 80))]
    ∧ build_predict_op p x tr g
      = (inr t,
         with_variables g
           (conv_specs p (scope g) c
            ++ dense_specs p (scope g) (((T - 5) / 3 - 2) / 3 * ((F - 59) * 80))))
    ∧ get_shape t = [n; Some (num_classes p)]
    ∧ op t = dense_node (scope g) (op f) tr.
Proof.
  intros Hx HF HT Hc Hnc Hfresh.
  set (g0 := set_scope (scope g +:+ "piczak" +:+ "/") g).
  pose proof (build_features_run p x tr (scope g) g0 n (Some F) (Some T) c Hx Hc
                eq_refl (fresh_conv_names g Hfresh)) as R.
  rewrite pooled_sizes_fit in R by done. cbn [fst snd] in R.
  set (W := ((T - 5) / 3 - 2) / 3) in *.
  assert (0 < W) as HW by (unfold W; Z.div_mod_to_equations; lia).
  set (g1 := with_variables g0 (conv_specs p (scope g) c)) in *.
  match type of R with context [reshape_stage ?t _] => set (cv := t) in * end.
  destruct (reshape_stage_steps cv n (F - 59) W 80 g1 eq_refl) as (_ & _ & _ & E);
    [lia..|].
  rewrite E in R. cbn [fst] in R.
  match type of R with _ = (inr ?t, _) => set (f := t) in * end.
  assert (0 ≤ W * ((F - 59) * 80)) as Hd by nia.
  pose proof (build_dense_full p f tr (scope g) g1 n _ eq_refl Hd Hnc eq_refl) as D.
  assert (∀ v, v ∈ [weights_of (scope g) "dense_1"; biases_of (scope g) "dense_1";
                    weights_of (scope g) "dense_2"; biases_of (scope g) "dense_2";
                    weights_of (scope g) "output"; biases_of (scope g) "output"] →
               v ∉ var_names g1) as Hfresh1.
  { intros v Hv. unfold g1. rewrite var_names_with_variables.
    cbn [fmap list_fmap var_name app conv_specs layer_specs].
    intros [Hin|Hin]%elem_of_app.
    - apply (Hfresh v); [|exact Hin]. rewrite piczak_variables_unfold.
      set_unfold. tauto.
    - revert Hin.
      repeat (apply elem_of_cons in Hv as [->|Hv]);
        [..|by apply not_elem_of_nil in Hv];
        match goal with |- ?a ∈ ?l → False => change (a ∉ l) end; names_distinct. }
  specialize (D Hfresh1).
  exists f, (set_scope (scope g) g1),
    {| op := dense_node (scope g) (op f) tr; get_shape := [n; Some (num_classes p)] |}.
  split; [unfold flatten_output; by apply variable_scope_run|].
  split; [done|]. split; [|done].
  unfold build_predict_op, variable_scope. fold g0.
  rewrite (bind_ok _ _ _ _ _ R), D. cbn [fst snd]. f_equal.
  unfold g1. by rewrite with_variables_app.
Qed.

(** Every input whose frequency size is at least 60 and whose time size is
    at least 20 fits, as long as no variable and no tensor of the pipeline
    exceeds the library's limit of 2^63 - 1 entries: the pipeline is built,
    the flat
    tensor that enters the first dense layer has
    (((T - 5) / 3 - 2) / 3) * (F - 59) * 80 features per example, and the
    output has shape (batch, num_classes), with the batch size of the input,
    known or not. *)
Theorem build_predict_op_fitting_input
    (p : Piczak) (x : Tensor) (is_training : bool) (g : Graph)
    (n : Dim) (F T c : Z) :
  get_shape x = [n; Some F; Some T; Some c] →
  60 ≤ F → 20 ≤ T → 1 ≤ c → 1 ≤ num_classes p →
  within_limit
    (conv_specs p (scope g) c
     ++ dense_specs p (scope g) (((T - 5) / 3 - 2) / 3 * ((F - 59) * 80))) →
  batch_within_limit n (F * T * 80) →
  batch_within_limit n (num_classes p) →
  fresh_for_piczak g →
  ∃ f g1 t g',
    flatten_output p x is_training g = (inr f, g1)
    ∧ get_shape f = [n; Some (((T - 5) / 3 - 2) / 3 * (F - 59) * 80)]
    ∧ build_predict_op p x is_training g = (inr t, g')
    ∧ get_shape t = [n; Some (num_classes p)]
    ∧ op t = dense_node (scope g) (op f) is_training.
Proof.
  intros Hx HF HT Hc Hnc _ _ _ Hfresh.
  destruct (build_predict_op_full p x is_training g n F T c)
    as (f & g1 & t & Hf & Hsf & Ht & Hst & Hop); try done; try lia.
  exists f, g1, t. eexists. split; [done|]. split; [|done].
  rewrite Hsf. do 3 f_equal. lia.
Qed.

Lemma build_predict_op_fitting_input_witness :
  ∃ f g1 t g',
    flatten_output reference_model (spectrogram 4 101) true empty_graph = (inr f, g1)
    ∧ get_shape f = [Some 4; Some (((101 - 5) / 3 - 2) / 3 * (60 - 59) * 80)]
    ∧ build_predict_op reference_model (spectrogram 4 101) true empty_graph
      = (inr t, g')
    ∧ get_shape t = [Some 4; Some (num_classes reference_model)]
    ∧ op t = dense_node (scope empty_graph) (op f) true.
Proof.
  apply (build_predict_op_fitting_input reference_model (spectrogram 4 101) true
           empty_graph (Some 4) 60 101 1);
    [reflexivity | lia | lia | lia | vm_compute; discriminate
    | repeat constructor; vm_compute; discriminate
    | intros N [= <-]; vm_compute; split; discriminate
    | intros N [= <-]; vm_compute; split; discriminate
    | exact empty_graph_fresh].
Defined.

(** The variables the build creates for an input that fits, in order, with
    their shapes: the kernels [57, 6, c, 80] and [1, 3, 80, 80], the dense
    matrices [features, 5000], [5000, 5000] and [5000, num_classes], and a
    bias vector per layer, when none of them and no tensor of the pipeline
    is beyond the library's limit of 2^63 - 1 entries.  Every weights
    variable carries the weights
    initializer and regularizer of the instance, every biases variable the
    biases ones.  Nothing else in the graph changes. *)
Theorem build_predict_op_creates_variables
    (p : Piczak) (x : Tensor) (is_training : bool) (g : Graph)
    (n : Dim) (F T c : Z) :
  get_shape x = [n; Some F; Some T; Some c] →
  60 ≤ F → 20 ≤ T → 1 ≤ c → 1 ≤ num_classes p →
  within_limit
    (conv_specs p (scope g) c
     ++ dense_specs p (scope g) (((T - 5) / 3 - 2) / 3 * ((F - 59) * 80))) →
  batch_within_limit n (F * T * 80) →
  batch_within_limit n (num_classes p) →
  fresh_for_piczak g →
  (build_predict_op p x is_training g).2
  = with_variables g
      (conv_specs p (scope g) c
       ++ dense_specs p (scope g) (((T - 5) / 3 - 2) / 3 * ((F - 59) * 80))).
Proof.
  intros Hx HF HT Hc Hnc _ _ _ Hfresh.
  destruct (build_predict_op_full p x is_training g n F T c)
    as (f & g1 & t & Hf & Hsf & Ht & Hst & Hop); try done; try lia.
  by rewrite Ht.
Qed.

Lemma build_predict_op_creates_variables_witness :
  (build_predict_op reference_model (spectrogram 1 41) false empty_graph).2
  = with_variables empty_graph
      (conv_specs reference_model (scope empty_graph) 1
       ++ dense_specs reference_model (scope empty_graph)
            (((41 - 5) / 3 - 2) / 3 * ((60 - 59) * 80))).
Proof.
  apply (build_predict_op_creates_variables reference_model (spectrogram 1 41) false
           empty_graph (Some 1) 60 41 1);
    [reflexivity | lia | lia | lia | vm_compute; discriminate
    | repeat constructor; vm_compute; discriminate
    | intros N [= <-]; vm_compute; split; discriminate
    | intros N [= <-]; vm_compute; split; discriminate
    | exact empty_graph_fresh].
Defined.

(** An input whose frequency size is below 60 or whose time size is below
    20 does not fit some window of the two convolutional blocks: the
    construction raises the shape error and returns no tensor. *)
Theorem build_predict_op_too_small
    (p : Piczak) (x : Tensor) (is_training : bool) (g : Graph)
    (n : Dim) (F T c : Z) :
  get_shape x = [n; Some F; Some T; Some c] →
  0 ≤ c →
  F < 60 ∨ T < 20 →
  fresh_for_piczak g →
  (build_predict_op p x is_training g).1 = inl ShapeMismatch.
Proof.
  intros Hx Hc Hsmall Hfresh. apply build_predict_op_features_fail.
  pose proof (build_features_run p x is_training (scope g)
                (set_scope (scope g +:+ "piczak" +:+ "/") g) n (Some F) (Some T) c
                Hx Hc eq_refl (fresh_conv_names g Hfresh)) as R.
  by rewrite pooled_sizes_small in R.
Qed.

Lemma build_predict_op_too_small_witness :
  (build_predict_op reference_model
     {| op := Placeholder "spectrogram";
        get_shape := [Some 8; Some 59; Some 41; Some 1] |}
     false empty_graph).1 = inl ShapeMismatch.
Proof.
  apply (build_predict_op_too_small _ _ false empty_graph (Some 8) 59 41 1);
    [reflexivity | lia | left; lia | exact empty_graph_fresh].
Defined.

(** When the frequency size or the time size of the input is not known
    statically (and the known one fits), the construction stops in the
    reshaping stage, where [int] is applied to the unknown size: a
    [TypeError], not a shape error. *)
Theorem build_predict_op_unknown_spatial_size
    (p : Piczak) (x : Tensor) (is_training : bool) (g : Graph)
    (n h w : Dim) (c : Z) :
  get_shape x = [n; h; w; Some c] →
  0 ≤ c →
  (∀ F, h = Some F → 60 ≤ F) →
  (∀ T, w = Some T → 20 ≤ T) →
  h = None ∨ w = None →
  fresh_for_piczak g →
  (build_predict_op p x is_training g).1 = inl TypeError.
Proof.
  intros Hx Hc Hh Hw Hnone Hfresh. apply build_predict_op_features_fail.
  pose proof (build_features_run p x is_training (scope g)
                (set_scope (scope g +:+ "piczak" +:+ "/") g) n h w c
                Hx Hc eq_refl (fresh_conv_names g Hfresh)) as R.
  assert (∃ hw, pooled_sizes h w = inr hw ∧ (hw.1 = None ∨ hw.2 = None))
    as (hw & Hhw & Hun).
  { destruct h as [F|], w as [T|].
    - by destruct Hnone.
    - destruct (pooled_sizes (Some F) None) as [e|hw] eqn:E.
      + exfalso. revert E. unfold pooled_sizes, windowed_output_size.
        specialize (Hh F eq_refl).
        repeat (rewrite ?Z.div_1_r;
                match goal with
                | |- context [?a <? ?b] => destruct (Z.ltb_spec a b); [lia|]
                end; cbn [ebind]).
        done.
      + exists hw. split; [done|]. right. by eapply pooled_sizes_unknown_width.
    - destruct (pooled_sizes None (Some T)) as [e|hw] eqn:E.
      + exfalso. revert E. unfold pooled_sizes, windowed_output_size.
        specialize (Hw T eq_refl).
        repeat (rewrite ?Z.div_1_r;
                match goal with
                | |- context [?a <? ?b] =>
                    destruct (Z.ltb_spec a b); [Z.div_mod_to_equations; lia|]
                end; cbn [ebind]).
        done.
      + exists hw. split; [done|]. left. by eapply pooled_sizes_unknown_height.
    - exists (None, None). split; [done | by left]. }
  rewrite Hhw in R. rewrite R. cbn [fst].
  erewrite reshape_stage_unknown; [done | reflexivity | exact Hun].
Qed.

Lemma build_predict_op_unknown_spatial_size_witness :
  (build_predict_op reference_model
     {| op := Placeholder "spectrogram";
        get_shape := [None; Some 60; None; Some 1] |}
     false empty_graph).1 = inl TypeError.
Proof.
  apply (build_predict_op_unknown_spatial_size _ _ false empty_graph
           None (Some 60) None 1).
  - reflexivity.
  - lia.
  - intros F [= <-]. lia.
  - intros T [=].
  - by right.
  - exact empty_graph_fresh.
Defined.

Lemma set_scope_back s g : set_scope (scope g) (set_scope s g) = g.
Proof. by destruct g. Qed.

Lemma first_layer_raises p x tr g :
  (∃ g1, slim_convolution x 80 (57, 6) (1, 1) (W_init p) (b_init p) (W_reg p)
           (b_reg p) "cnn_1" (set_scope (scope g +:+ "piczak" +:+ "/") g)
         = (inl ValueError, g1)
         ∧ set_scope (scope g) g1 = g) →
  build_predict_op p x tr g = (inl ValueError, g).
Proof.
  intros (g1 & E & Hg1).
  unfold build_predict_op, variable_scope, build_features, conv_block_1.
  rewrite (bind_fail _ _ _ _ _ (bind_fail _ _ _ _ _ (bind_fail _ _ _ _ _ E))).
  cbn [fst snd]. by rewrite Hg1.
Qed.

Lemma slim_convolution_rejects x out ks st wi bi wr br sc g :
  length (get_shape x) ≠ 4%nat ∨ get_shape x !! 3%nat = Some None →
  slim_convolution x out ks st wi bi wr br sc g = (inl ValueError, g).
Proof.
  intros Hshape. unfold slim_convolution, variable_scope.
  destruct (get_shape x) as [|n [|h [|w [|[c|] [|??]]]]];
    cbn [fst snd throw]; rewrite ?set_scope_back; try done.
  destruct Hshape as [Hlen|Hc]; [by simpl in Hlen | by simpl in Hc].
Qed.


(** An input that is not of rank 4, or whose channel size is unknown, is
    refused by the first convolution with a [ValueError] before any variable
    is created: the graph is exactly as it was. *)
Theorem build_predict_op_rejects_non_nhwc
    (p : Piczak) (x : Tensor) (is_training : bool) (g : Graph) :
  length (get_shape x) ≠ 4%nat ∨ get_shape x !! 3%nat = Some None →
  build_predict_op p x is_training g = (inl ValueError, g).
Proof.
  intros Hshape. apply first_layer_raises. eexists. split.
  - by apply slim_convolution_rejects.
  - apply set_scope_back.
Qed.

Lemma build_predict_op_rejects_non_nhwc_witness :
  build_predict_op reference_model
    {| op := Placeholder "spectrogram"; get_shape := [Some 8; Some 60; Some 41] |}
    false empty_graph
  = (inl ValueError, empty_graph).
Proof.
  apply (build_predict_op_rejects_non_nhwc reference_model _ false empty_graph).
  left. simpl. lia.
Defined.



(** ** What the construction depends on *)

Lemma same_outcome_bind_tensor (m m' : M Tensor) (k k' : Tensor → M Tensor) g :
  same_outcome (m g) (m' g) →
  (∀ a b g1, get_shape a = get_shape b → same_outcome (k a g1) (k' b g1)) →
  same_outcome (bind m k g) (bind m' k' g).
Proof.
  unfold same_outcome, bind. intros [Hg Hr] Hk.
  destruct (m g) as [[e|a] g1], (m' g) as [[e'|b] g1']; simpl in *; subst;
    try done.
  by apply Hk.
Qed.

Lemma same_outcome_bind {A} (m : M A) (k k' : A → M Tensor) g :
  (∀ a g1, same_outcome (k a g1) (k' a g1)) →
  same_outcome (bind m k g) (bind m k' g).
Proof.
  unfold bind. intros Hk. destruct (m g) as [[e|a] g1]; [done | apply Hk].
Qed.

Lemma same_outcome_variable_scope name (body body' : M Tensor) g :
  (∀ g0, same_outcome (body g0) (body' g0)) →
  same_outcome (variable_scope name body g) (variable_scope name body' g).
Proof.
  intros Hb. unfold variable_scope, same_outcome. cbn [fst snd].
  destruct (Hb (set_scope (scope g +:+ name +:+ "/") g)) as [-> Hr]. done.
Qed.

Lemma same_outcome_ret a b g :
  get_shape a = get_shape b → same_outcome (ret a g) (ret b g).
Proof. done. Qed.

Lemma same_outcome_throw e g : same_outcome (throw e g) (throw e g).
Proof. done. Qed.

Lemma same_outcome_slim_convolution a b out ks st wi bi wr br sc g :
  get_shape a = get_shape b →
  same_outcome (slim_convolution a out ks st wi bi wr br sc g)
               (slim_convolution b out ks st wi bi wr br sc g).
Proof.
  intros H. unfold slim_convolution. rewrite <- H.
  apply same_outcome_variable_scope. intros g0.
  destruct (get_shape a) as [|n [|h [|w [|[c|] [|??]]]]];
    try apply same_outcome_throw.
  repeat (apply same_outcome_bind; intros ??). by apply same_outcome_ret.
Qed.

Lemma same_outcome_slim_fully_connected a b out wi bi wr br sc g :
  get_shape a = get_shape b →
  same_outcome (slim_fully_connected a out wi bi wr br sc g)
               (slim_fully_connected b out wi bi wr br sc g).
Proof.
  intros H. unfold slim_fully_connected. rewrite <- H.
  apply same_outcome_variable_scope. intros g0.
  case_bool_decide; [apply same_outcome_throw|].
  destruct (last (get_shape a)) as [[d|]|]; try apply same_outcome_throw.
  repeat (apply same_outcome_bind; intros ??). by apply same_outcome_ret.
Qed.

Lemma same_outcome_slim_pool a b ks st g :
  get_shape a = get_shape b →
  same_outcome (slim_pool a ks st g) (slim_pool b ks st g).
Proof.
  intros H. unfold slim_pool. rewrite <- H.
  destruct (get_shape a) as [|n [|h [|w [|c [|??]]]]];
    try apply same_outcome_throw.
  repeat (apply same_outcome_bind; intros ??). by apply same_outcome_ret.
Qed.

Lemma same_outcome_slim_dropout a b keep tr tr' sc g :
  get_shape a = get_shape b →
  same_outcome (slim_dropout a keep tr sc g) (slim_dropout b keep tr' sc g).
Proof. intros H. by rewrite !slim_dropout_eq. Qed.

Lemma same_outcome_tf_reshape a b target g :
  get_shape a = get_shape b →
  same_outcome (tf_reshape a target g) (tf_reshape b target g).
Proof.
  intros H. unfold tf_reshape. rewrite <- H.
  repeat case_match; first [apply same_outcome_throw | by apply same_outcome_ret].
Qed.

Lemma same_outcome_reshape_stage a b g :
  get_shape a = get_shape b →
  same_outcome (reshape_stage a g) (reshape_stage b g).
Proof.
  intros H. unfold reshape_stage.
  apply same_outcome_bind_tensor.
  { unfold transpose_stage, tf_transpose. rewrite <- H.
    repeat case_match; first [apply same_outcome_throw | by apply same_outcome_ret]. }
  intros a1 b1 g1 H1. apply same_outcome_bind_tensor.
  { unfold merge_stage. rewrite <- H1.
    repeat (apply same_outcome_bind; intros ??). by apply same_outcome_tf_reshape. }
  intros a2 b2 g2 H2. unfold flatten_stage. rewrite <- H2.
  repeat (apply same_outcome_bind; intros ??). by apply same_outcome_tf_reshape.
Qed.

(** The training flag plays no part in the construction: for one input
    tensor, a training build and an inference build leave the same graph,
    with the same variables, and either raise the same exception or return
    tensors of the same static shape. *)
Theorem build_predict_op_mode_independent
    (p : Piczak) (x : Tensor) (is_training is_training' : bool) (g : Graph) :
  same_outcome (build_predict_op p x is_training g)
               (build_predict_op p x is_training' g).
Proof.
  pose proof (eq_refl (get_shape x)) as Hx. unfold build_predict_op.
  apply same_outcome_variable_scope. intros g0.
  apply same_outcome_bind_tensor.
  - unfold build_features. apply same_outcome_bind_tensor.
    + unfold conv_block_1. apply same_outcome_bind_tensor;
        [by apply same_outcome_slim_convolution|].
      intros a b g1 H. apply same_outcome_bind_tensor;
        [by apply same_outcome_ret|].
      intros a1 b1 g2 H1. apply same_outcome_bind_tensor;
        [by apply same_outcome_slim_dropout|].
      intros a2 b2 g3 H2. by apply same_outcome_slim_pool.
    + intros a b g1 H. apply same_outcome_bind_tensor.
      * unfold conv_block_2. apply same_outcome_bind_tensor;
          [by apply same_outcome_slim_convolution|].
        intros a1 b1 g2 H1. apply same_outcome_bind_tensor;
          [by apply same_outcome_ret|].
        intros a2 b2 g3 H2. by apply same_outcome_slim_pool.
      * intros a1 b1 g2 H1. by apply same_outcome_reshape_stage.
  - intros f f' g1 Hf. unfold build_dense.
    assert (∀ a b sc g2, get_shape a = get_shape b →
              same_outcome (dense_block p a is_training sc g2)
                           (dense_block p b is_training' sc g2)) as Hblock.
    { intros a b sc g2 H. unfold dense_block. apply same_outcome_bind_tensor;
        [by apply same_outcome_slim_fully_connected|].
      intros a1 b1 g3 H1. apply same_outcome_bind_tensor;
        [by apply same_outcome_ret|].
      intros a2 b2 g4 H2. by apply same_outcome_slim_dropout. }
    apply same_outcome_bind_tensor; [by apply Hblock|].
    intros a b g2 H. apply same_outcome_bind_tensor; [by apply Hblock|].
    intros a1 b1 g3 H1. unfold output_layer.
    by apply same_outcome_slim_fully_connected.
Qed.

(** ** What a run of the pipeline reads *)

Lemma run_agree {V RNG : Type} (K : Kernels V RNG)
    (sess1 sess2 feed : gmap string V) (n : Node) :
  (∀ v, v ∈ reads n → sess1 !! v = sess2 !! v) →
  ∀ rng, run K sess1 feed n rng = run K sess2 feed n rng.
Proof.
  induction n as [name|x IH w b st|x IH|x IH keep tr|x IH ks st|x IH perm
                  |x IH target|x IH w b|l IHl x IHx|x IH];
    intros Hagree rng; cbn [run reads] in *;
    try (rewrite IH by done; done).
  - done.
  - rewrite IH by (intros v Hv; apply Hagree; set_unfold; tauto).
    unfold read_variable.
    by rewrite (Hagree w), (Hagree b) by (set_unfold; tauto).
  - rewrite IH by (intros v Hv; apply Hagree; set_unfold; tauto).
    unfold read_variable.
    by rewrite (Hagree w), (Hagree b) by (set_unfold; tauto).
  - rewrite IHl by (intros v Hv; apply Hagree; set_unfold; tauto).
    destruct (run K sess2 feed l rng) as [e|rl]; [done|]. cbn [ebind].
    by rewrite IHx by (intros v Hv; apply Hagree; set_unfold; tauto).
Qed.

(** The tensor a successful build returns reads the variables its input
    reads and the ten variables of the pipeline, and no other: two sessions
    that agree on these give the same result and the same generator state,
    in training mode as in inference mode. *)
Theorem pipeline_reads_its_variables {V RNG : Type} (K : Kernels V RNG)
    (p : Piczak) (x : Tensor) (is_training : bool) (g : Graph)
    (t : Tensor) (g' : Graph) :
  build_predict_op p x is_training g = (inr t, g') →
  reads (op t) = reads (op x) ++ piczak_variables (scope g)
  ∧ ∀ (sess1 sess2 feed : gmap string V) (rng : RNG),
      (∀ v, v ∈ reads (op x) ++ piczak_variables (scope g) →
            sess1 !! v = sess2 !! v) →
      run K sess1 feed (op t) rng = run K sess2 feed (op t) rng.
Proof.
  intros [(tg1 & tg2 & Hop) _]%build_predict_op_inr.
  assert (reads (op t) = reads (op x) ++ piczak_variables (scope g)) as Hreads.
  { rewrite Hop, piczak_variables_unfold. cbn [reads dense_node features_node].
    by rewrite <- !app_assoc. }
  split; [done|]. intros sess1 sess2 feed rng Hagree.
  apply run_agree. by rewrite Hreads.
Qed.

Lemma pipeline_reads_its_variables_witness :
  reads (op reference_training)
  = reads (op (spectrogram 1 41)) ++ piczak_variables (scope empty_graph)
  ∧ ∀ (sess1 sess2 feed : gmap string Z) (rng : nat),
      (∀ v, v ∈ reads (op (spectrogram 1 41)) ++ piczak_variables (scope empty_graph) →
            sess1 !! v = sess2 !! v) →
      run scalar_kernels sess1 feed (op reference_training) rng
      = run scalar_kernels sess2 feed (op reference_training) rng.
Proof.
  apply (pipeline_reads_its_variables scalar_kernels reference_model
           (spectrogram 1 41) true empty_graph reference_training
           (build_predict_op reference_model (spectrogram 1 41) true empty_graph).2).
  vm_compute. reflexivity.
Defined.

(** * Further properties of saving and restoring *)

(** Saving a session and loading the checkpoint into another session of the
    same graph gives a session that holds the saved value of every collected
    variable (those whose name starts with "model") and the other session's
    own value, or absence, of every other variable. *)
Theorem save_then_load_restores_collected {V : Type}
    (p1 p2 : Piczak) (path : string) (g : Graph)
    (sess1 sess2 : gmap string V) (fs : gmap string (gmap string V)) :
  get_collection_GLOBAL_VARIABLES "model" g ≠ [] →
  Forall (λ n, is_Some (sess1 !! n)) (get_collection_GLOBAL_VARIABLES "model" g) →
  ∃ fs' sess2',
    save p1 path sess1 g fs = inr fs'
    ∧ load_piczak p2 path sess2 g fs' = inr sess2'
    ∧ ∀ n, sess2' !! n
           = if decide (n ∈ get_collection_GLOBAL_VARIABLES "model" g)
             then sess1 !! n else sess2 !! n.
Proof.
  intros Hne Hinit.
  destruct (save_collected p1 path sess1 g fs Hne) as (ckpt & Hsave & Hck).
  { by apply Forall_forall. }
  destruct (load_collected p2 path sess2 g (<[path := ckpt]> fs) ckpt Hne)
    as (sess2' & Hload & Hs2).
  { apply lookup_insert_eq. }
  { intros n Hn. rewrite Hck, decide_True by done.
    by apply (proj1 (Forall_forall _ _) Hinit). }
  exists (<[path := ckpt]> fs), sess2'. split; [done|]. split; [done|].
  intros n. rewrite Hs2. destruct (decide _) as [Hin|Hnin]; [|done].
  by rewrite Hck, decide_True.
Qed.

Lemma save_then_load_restores_collected_witness :
  ∃ fs' sess2',
    save reference_model "ckpt"
      (constant_session (var_names top_level_graph_with_step) 0)
      top_level_graph_with_step (∅ : gmap string (gmap string Z)) = inr fs'
    ∧ load_piczak reference_model "ckpt"
        (constant_session (var_names top_level_graph_with_step) 7)
        top_level_graph_with_step fs' = inr sess2'
    ∧ ∀ n, sess2' !! n
           = if decide (n ∈ get_collection_GLOBAL_VARIABLES "model"
                              top_level_graph_with_step)
             then constant_session (var_names top_level_graph_with_step) 0 !! n
             else constant_session (var_names top_level_graph_with_step) 7 !! n.
Proof.
  apply (save_then_load_restores_collected reference_model reference_model "ckpt"
           top_level_graph_with_step).
  - vm_compute. discriminate.
  - vm_compute. repeat constructor; eexists; reflexivity.
Defined.

(** Loading a session's own checkpoint changes nothing: after [save],
    [load_piczak] from the same path into the same session returns that
    session. *)
Theorem load_own_checkpoint {V : Type}
    (p1 p2 : Piczak) (path : string) (g : Graph)
    (sess : gmap string V) (fs : gmap string (gmap string V)) :
  get_collection_GLOBAL_VARIABLES "model" g ≠ [] →
  Forall (λ n, is_Some (sess !! n)) (get_collection_GLOBAL_VARIABLES "model" g) →
  ∃ fs', save p1 path sess g fs = inr fs'
         ∧ load_piczak p2 path sess g fs' = inr sess.
Proof.
  intros Hne Hinit.
  destruct (save_collected p1 path sess g fs Hne) as (ckpt & Hsave & Hck).
  { by apply Forall_forall. }
  destruct (load_collected p2 path sess g (<[path := ckpt]> fs) ckpt Hne)
    as (sess' & Hload & Hs').
  { apply lookup_insert_eq. }
  { intros n Hn. rewrite Hck, decide_True by done.
    by apply (proj1 (Forall_forall _ _) Hinit). }
  exists (<[path := ckpt]> fs). split; [done|]. rewrite Hload. f_equal.
  apply map_eq. intros n. rewrite Hs'. destruct (decide _) as [Hin|Hnin]; [|done].
  by rewrite Hck, decide_True.
Qed.

Lemma load_own_checkpoint_witness :
  ∃ fs',
    save reference_model "ckpt" (constant_session (piczak_variables "model/") 2)
      model_scope_graph (∅ : gmap string (gmap string Z)) = inr fs'
    ∧ load_piczak reference_model "ckpt"
        (constant_session (piczak_variables "model/") 2) model_scope_graph fs'
      = inr (constant_session (piczak_variables "model/") 2).
Proof.
  apply (load_own_checkpoint reference_model reference_model "ckpt" model_scope_graph).
  - vm_compute. discriminate.
  - vm_compute. repeat constructor; eexists; reflexivity.
Defined.

(** [save] writes nothing when it cannot save everything: when some
    collected variable is not initialised in the session it raises
    [FailedPreconditionError] and returns no file system. *)
Theorem save_uninitialised {V : Type}
    (p : Piczak) (path : string) (g : Graph)
    (sess : gmap string V) (fs : gmap string (gmap string V)) (n : string) :
  n ∈ get_collection_GLOBAL_VARIABLES "model" g →
  sess !! n = None →
  save p path sess g fs = inl FailedPreconditionError.
Proof.
  intros Hin Hn. unfold save, Saver, Saver_save.
  destruct (get_collection_GLOBAL_VARIABLES "model" g) as [|a names] eqn:E;
    [by apply not_elem_of_nil in Hin|].
  by rewrite (read_all_None (a :: names) sess n Hin Hn).
Qed.

Lemma save_uninitialised_witness :
  save reference_model "ckpt"
    (delete "model/piczak/dense_2/biases"
       (constant_session (piczak_variables "model/") 2))
    model_scope_graph (∅ : gmap string (gmap string Z))
  = inl FailedPreconditionError.
Proof.
  apply (save_uninitialised reference_model "ckpt" model_scope_graph _ ∅
           "model/piczak/dense_2/biases").
  - vm_compute. do 7 right. left.
  - vm_compute. reflexivity.
Defined.



(** [load_piczak] restores all or nothing: when the checkpoint under the
    path lacks a collected variable it raises [NotFoundError], and no
    session is returned. *)
Theorem load_piczak_missing_variable {V : Type}
    (p : Piczak) (path : string) (g : Graph)
    (sess : gmap string V) (fs : gmap string (gmap string V))
    (ckpt : gmap string V) (n : string) :
  fs !! path = Some ckpt →
  n ∈ get_collection_GLOBAL_VARIABLES "model" g →
  ckpt !! n = None →
  load_piczak p path sess g fs = inl NotFoundError.
Proof.
  intros Hpath Hin Hn. unfold load_piczak, Saver, Saver_restore.
  destruct (get_collection_GLOBAL_VARIABLES "model" g) as [|a names] eqn:E;
    [by apply not_elem_of_nil in Hin|].
  rewrite Hpath. by rewrite (read_all_None (a :: names) ckpt n Hin Hn).
Qed.

Lemma load_piczak_missing_variable_witness :
  load_piczak reference_model "ckpt" (constant_session (piczak_variables "model/") 2)
    model_scope_graph
    ({[ "ckpt" := {[ "model/piczak/cnn_1/weights" := 1 ]} ]}
       : gmap string (gmap string Z))
  = inl NotFoundError.
Proof.
  apply (load_piczak_missing_variable reference_model "ckpt" model_scope_graph _ _
           {[ "model/piczak/cnn_1/weights" := 1 ]} "model/piczak/cnn_1/biases").
  - vm_compute. reflexivity.
  - vm_compute. right. left.
  - vm_compute. reflexivity.
Defined.

(** * Further properties of the loss

    The properties of this part that speak of the value of the loss are
    properties of the real-number model of the kernel: the float32 kernel
    of the library satisfies them up to its rounding. *)

Section LossValue.
Import RealLoss.
Local Open Scope R_scope.

Lemma xent_rows_valid (device : Device) (y : list Z) (L : list (list R)) :
  Forall2 (λ l row, (0 ≤ l < Z.of_nat (length row))%Z) y L →
  xent_rows device y L = inr (Real <$> zip_with cross_entropy y L).
Proof.
  induction 1 as [|l row y L Hl _ IH]; [done|]. cbn [xent_rows zip_with].
  by rewrite xent_row_cross_entropy, IH.
Qed.

(** The loss of a non-empty batch with every label in range, on either
    device. *)
Lemma loss_value_valid (p : Piczak) (device : Device) (y : list Z)
    (L : list (list R)) :
  L ≠ [] →
  Forall2 (λ l row, (0 ≤ l < Z.of_nat (length row))%Z) y L →
  loss_value p device y L
  = inr (Scalar (Real (mean (zip_with cross_entropy y L)))).
Proof.
  intros Hne Hvalid. rewrite loss_value_eq.
  rewrite bool_decide_eq_true_2 by (by eapply Forall2_length).
  rewrite xent_rows_valid by done. cbn [ebind].
  rewrite mean_number_Real; [done|].
  destruct Hvalid; [done | cbn [zip_with]; done].
Qed.

Lemma exp_le_Rsum (row : list R) (i : nat) :
  (i < length row)%nat → exp (nth i row 0) <= Rsum (exp <$> row).
Proof.
  revert i. induction row as [|x row IH]; intros [|i] Hi; simpl in Hi; try lia;
    rewrite fmap_cons, Rsum_cons; cbn [nth].
  - pose proof (Rsum_exp_nonneg row). lra.
  - pose proof (exp_pos x). assert (i < length row)%nat as Hi' by lia.
    specialize (IH i Hi'). lra.
Qed.

Lemma ln_le_0 (a : R) : 0 < a → a <= 1 → ln a <= 0.
Proof.
  intros Hpos [Hlt| ->]; [|rewrite ln_1; lra].
  pose proof (ln_increasing a 1 Hpos Hlt). rewrite ln_1 in *. lra.
Qed.

Lemma cross_entropy_nonneg (label : Z) (row : list R) :
  (0 ≤ label < Z.of_nat (length row))%Z → 0 <= cross_entropy label row.
Proof.
  intros [Hlo Hhi]. unfold cross_entropy. rewrite softmax_eq.
  assert (row ≠ []) as Hne by (destruct row; [simpl in *; lia | done]).
  pose proof (Rsum_exp_pos row Hne) as Hpos.
  assert (Z.to_nat label < length row)%nat as Hi by lia.
  pose proof (exp_le_Rsum row (Z.to_nat label) Hi) as Hle.
  pose proof (exp_pos (nth (Z.to_nat label) row 0)) as Hexp.
  assert (ln (exp (nth (Z.to_nat label) row 0) / Rsum (exp <$> row)) <= 0);
    [|lra].
  apply ln_le_0.
  - by apply Rdiv_lt_0_compat.
  - apply (Rmult_le_reg_r (Rsum (exp <$> row))); [done|].
    unfold Rdiv. rewrite Rmult_assoc, Rinv_l by lra. lra.
Qed.

Lemma Rsum_nonneg (l : list R) : Forall (λ a, 0 <= a) l → 0 <= Rsum l.
Proof.
  induction 1 as [|a l Ha _ IH]; [unfold Rsum; simpl; lra|].
  rewrite Rsum_cons. lra.
Qed.



Lemma mean_nonneg (l : list R) : l ≠ [] → Forall (λ a, 0 <= a) l → 0 <= mean l.
Proof.
  intros Hne Hall. unfold mean.
  assert (0 < INR (length l)) as Hpos
    by (apply lt_0_INR; destruct l; [done | simpl; lia]).
  pose proof (Rsum_nonneg l Hall).
  apply Rmult_le_pos; [done|]. left. by apply Rinv_0_lt_compat.
Qed.

Lemma zip_with_cross_entropy_Forall (P : R → Prop) (Q : Z → list R → Prop)
    (y : list Z) (L : list (list R)) :
  (∀ l row, Q l row → P (cross_entropy l row)) →
  Forall2 Q y L → Forall P (zip_with cross_entropy y L).
Proof.
  intros HPQ. induction 1 as [|l row y L Hl _ IH]; [constructor|].
  cbn [zip_with]. constructor; [by apply HPQ | done].
Qed.

Lemma zip_with_cross_entropy_nonempty (Q : Z → list R → Prop)
    (y : list Z) (L : list (list R)) :
  L ≠ [] → Forall2 Q y L → zip_with cross_entropy y L ≠ [].
Proof. intros Hne Hall. destruct Hall; [done | cbn [zip_with]; done]. Qed.
End LossValue.

Section LossTheorems.
Import RealLoss.
Local Open Scope R_scope.

(** The loss of a non-empty batch with every label in range is a number,
    on either device, and it is not negative. *)
Theorem loss_is_nonnegative (p : Piczak) (device : Device) (y : list Z)
    (L : list (list R)) :
  L ≠ [] →
  Forall2 (λ l row, (0 ≤ l < Z.of_nat (length row))%Z) y L →
  ∃ v, loss_value p device y L = inr (Scalar (Real v)) ∧ 0 <= v.
Proof.
  intros Hne Hvalid. rewrite loss_value_valid by done.
  eexists. split; [done|]. apply mean_nonneg.
  - by eapply zip_with_cross_entropy_nonempty.
  - eapply zip_with_cross_entropy_Forall; [|exact Hvalid].
    intros l row Hl. by apply cross_entropy_nonneg.
Qed.

Lemma loss_is_nonnegative_witness :
  ∃ v, loss_value reference_model GPU [1%Z; 0%Z] [[2; 5; 1]; [0; 0; 3]]
       = inr (Scalar (Real v))
       ∧ 0 <= v.
Proof.
  apply (loss_is_nonnegative reference_model GPU [1%Z; 0%Z]
           [[2; 5; 1]; [0; 0; 3]]).
  - discriminate.
  - repeat constructor; simpl; lia.
Defined.










End LossTheorems.

Section ConfidentPredictions.
Import RealLoss.
Local Open Scope R_scope.







End ConfidentPredictions.

(** ** The construction of the loss op *)

(** [get_loss_op] creates no variable and leaves the variable scope as it
    is, whether it returns the loss or raises. *)
Theorem get_loss_op_keeps_graph (p : Piczak) (prediction label_tensor : Tensor)
    (g : Graph) :
  (get_loss_op p prediction label_tensor g).2 = g.
Proof. apply graph_free_get_loss_op. Qed.

(** Labels whose rank is not one less than the rank of the logits are
    refused when the op is built: one-hot labels of shape (N, C) against
    logits of shape (N, C) raise, where class indices of shape (N,) are
    expected. *)
Theorem get_loss_op_rank_mismatch (p : Piczak) (prediction label_tensor : Tensor)
    (g : Graph) :
  get_shape prediction ≠ [] →
  length (get_shape label_tensor) ≠ (length (get_shape prediction) - 1)%nat →
  get_loss_op p prediction label_tensor g = (inl ShapeMismatch, g).
Proof.
  intros Hne Hrank.
  unfold get_loss_op, tf_nn_sparse_softmax_cross_entropy_with_logits, bind, throw.
  destruct (get_shape prediction) as [|d s] eqn:E; [done|].
  rewrite bool_decide_eq_false_2 by done.
  by rewrite bool_decide_eq_true_2 by done.
Qed.

Lemma get_loss_op_rank_mismatch_witness :
  get_loss_op reference_model (logits_placeholder 2 50)
    {| op := Placeholder "labels"; get_shape := [Some 2; Some 50] |} empty_graph
  = (inl ShapeMismatch, empty_graph).
Proof.
  apply (get_loss_op_rank_mismatch reference_model (logits_placeholder 2 50)
           {| op := Placeholder "labels"; get_shape := [Some 2; Some 50] |}
           empty_graph).
  - discriminate.
  - simpl. lia.
Defined.

(** With a batch size that is not known when the op is built, on either
    side, nothing is compared: the scalar loss op is built, the mean of the
    cross-entropy op on the two tensors. *)
Theorem get_loss_op_unknown_batch (p : Piczak) (prediction label_tensor : Tensor)
    (g : Graph) (n c m : Dim) :
  get_shape prediction = [n; c] →
  get_shape label_tensor = [m] →
  n = None ∨ m = None →
  ∃ loss,
    get_loss_op p prediction label_tensor g = (inr loss, g)
    ∧ get_shape loss = []
    ∧ op loss = ReduceMean
                  (SparseSoftmaxCrossEntropyWithLogits (op label_tensor)
                     (op prediction)).
Proof.
  intros Hp Hl Hunknown. rewrite (get_loss_op_rank2 p _ _ g _ _ _ Hp Hl).
  destruct Hunknown as [-> | ->]; [|destruct n]; cbn [merge_dim]; by eexists.
Qed.

Lemma get_loss_op_unknown_batch_witness :
  ∃ loss,
    get_loss_op reference_model unknown_logits (labels_placeholder 3) empty_graph
    = (inr loss, empty_graph)
    ∧ get_shape loss = []
    ∧ op loss = ReduceMean
                  (SparseSoftmaxCrossEntropyWithLogits (op (labels_placeholder 3))
                     (op unknown_logits)).
Proof.
  apply (get_loss_op_unknown_batch reference_model unknown_logits
           (labels_placeholder 3) empty_graph None None (Some 3)).
  - reflexivity.
  - reflexivity.
  - by left.
Defined.

(** ** Checkpoints of a pipeline built outside the scope "model" *)

Lemma append_cons a (s t : string) : String a s +:+ t = String a (s +:+ t).
Proof. reflexivity. Qed.

(** A name that does not start with "model" does not come to start with it
    when a name that starts with "p" is appended. *)
Lemma prefix_model_false (s u : string) :
  String.prefix "model" s = false →
  String.prefix "p" u = true →
  String.prefix "model" (s +:+ u) = false.
Proof.
  intros H Hu. destruct u as [|b u]; [done|].
  cbn [String.prefix] in Hu. destruct (Ascii.ascii_dec _ b) as [<-|]; [|done].
  clear Hu.
  repeat (destruct s as [|? s]; [reflexivity || (exfalso; done)|];
          rewrite append_cons; cbn [String.prefix] in H |- *;
          destruct (Ascii.ascii_dec _ _); [|reflexivity]).
  by destruct s.
Qed.

Lemma piczak_variables_not_collected (s : string) :
  String.prefix "model" s = false →
  Forall (λ n, String.prefix "model" n = false) (piczak_variables s).
Proof.
  intros Hs. rewrite piczak_variables_eq. apply Forall_fmap.
  assert (Forall (λ n, String.prefix "p" n = true) (piczak_variables "")) as Hp
    by (vm_compute; repeat constructor).
  eapply Forall_impl; [exact Hp|]. intros n Hn. by apply prefix_model_false.
Qed.

(** Built under a scope whose name does not start with "model" (the top
    level, where the class builds it, is one), on a graph with no variable
    of such a name, the pipeline leaves nothing for [save] and [load_piczak]
    to collect: both raise [ValueError], for any session, path and file
    system. *)
Theorem save_outside_model_scope {V : Type}
    (p : Piczak) (x : Tensor) (is_training : bool) (g0 : Graph)
    (t : Tensor) (g : Graph)
    (p' : Piczak) (path : string)
    (sess : gmap string V) (fs : gmap string (gmap string V)) :
  String.prefix "model" (scope g0) = false →
  Forall (λ n, String.prefix "model" n = false) (var_names g0) →
  build_predict_op p x is_training g0 = (inr t, g) →
  save p' path sess g fs = inl ValueError
  ∧ load_piczak p' path sess g fs = inl ValueError.
Proof.
  intros Hs Hother [_ [_ Hv]]%build_predict_op_inr.
  assert (get_collection_GLOBAL_VARIABLES "model" g = []) as Hnone.
  { unfold get_collection_GLOBAL_VARIABLES. rewrite Hv.
    apply filter_prefix_none, Forall_app. split; [done|].
    by apply piczak_variables_not_collected. }
  unfold save, load_piczak. by rewrite Hnone.
Qed.

Lemma save_outside_model_scope_witness :
  save reference_model "ckpt" (constant_session (piczak_variables "") 2)
    reference_graph (∅ : gmap string (gmap string Z))
  = inl ValueError
  ∧ load_piczak reference_model "ckpt" (constant_session (piczak_variables "") 2)
      reference_graph (∅ : gmap string (gmap string Z))
    = inl ValueError.
Proof.
  apply (save_outside_model_scope reference_model (spectrogram 1 41) false
           empty_graph reference_inference reference_graph).
  - reflexivity.
  - vm_compute. constructor.
  - vm_compute. reflexivity.
Defined.
